(** * talk-to-the-chart: the evidence retrieval pipeline, embedded and verified

    A shallow embedding of the core of the repository
    (domain/entities.py, infrastructure/gemini_service.py and
    use_cases/interfaces.py) followed by the properties of its specification,
    and of the code around it (infrastructure/repositories.py, the
    controller of adapters/controllers.py and the wiring of main.py) with
    further properties read off the code.

    Conventions of the embedding.
    - A Python [str] is a list of characters.  A character is a code point
      below 256 (Latin-1); on that range the classes [\d] and [\s] of
      Python's [re] and [str.lower] are exactly the functions [is_digit],
      [is_space] and [lower_char] below.
    - A Python [float] is an IEEE 754 binary64 value ([spec_float] with
      precision 53 and maximal exponent 1024); [float(digits)] and [/] are
      the correctly rounded conversion and division.
    - Exceptions are values of [exn]; code that can raise returns a
      [result].
    - Objects whose identity matters live in a [heap]. *)

From Stdlib Require Import ZArith List Ascii String Lia Bool Decimal DecimalString.
From Stdlib Require Import DecimalNat DecimalFacts.
From Stdlib Require Import Sorting.Sorted Sorting.Permutation.
From Stdlib Require Import Floats.SpecFloat.
From stdpp Require Import gmap.
Import ListNotations.

Local Open Scope Z_scope.

(* ===================================================================== *)
(** * Part I: the embedding                                               *)
(* ===================================================================== *)

(** ** Text *)

Abbreviation str := (list ascii).

Definition py (s : string) : str := list_ascii_of_string s.

Definition dquote : ascii := "034"%char.
Definition newline : ascii := "010"%char.

Definition code (c : ascii) : N := N_of_ascii c.

(** [\d] on Latin-1 text: the ten ASCII digits. *)
Definition is_digit (c : ascii) : bool :=
  ((48 <=? code c) && (code c <=? 57))%N.

(** [\s] on Latin-1 text: TAB..CR, FS..US, space, NEL and NBSP. *)
Definition is_space (c : ascii) : bool :=
  (((9 <=? code c) && (code c <=? 13))
   || ((28 <=? code c) && (code c <=? 32))
   || (code c =? 133) || (code c =? 160))%N.

Definition not_dquote (c : ascii) : bool := negb (Ascii.eqb c dquote).

(** [str.lower] on one Latin-1 character. *)
Definition lower_char (c : ascii) : ascii :=
  let n := code c in
  if (((65 <=? n) && (n <=? 90))
      || ((192 <=? n) && (n <=? 222) && negb (n =? 215)))%N
  then ascii_of_N (n + 32) else c.

Definition lower (s : str) : str := map lower_char s.

(** [s.startswith(p)] *)
Fixpoint starts_with (p s : str) : bool :=
  match p, s with
  | [], _ => true
  | _ :: _, [] => false
  | a :: p', b :: s' => Ascii.eqb a b && starts_with p' s'
  end.

(** [p in s] for strings *)
Fixpoint contains (p s : str) : bool :=
  starts_with p s || match s with
                     | [] => false
                     | _ :: s' => contains p s'
                     end.

Fixpoint take_while (f : ascii -> bool) (s : str) : str :=
  match s with
  | c :: s' => if f c then c :: take_while f s' else []
  | [] => []
  end.

Fixpoint drop_while (f : ascii -> bool) (s : str) : str :=
  match s with
  | c :: s' => if f c then drop_while f s' else s
  | [] => []
  end.

Definition push_char (c : ascii) (pieces : list str) : list str :=
  match pieces with
  | [] => [[c]]
  | p :: ps => (c :: p) :: ps
  end.

(** [s.split(sep)] for a non-empty separator: the pieces between the
    non-overlapping occurrences of [sep], scanned from the left.  [skip]
    counts the characters of a separator still to be passed over. *)
Fixpoint split_from (sep : str) (skip : nat) (s : str) : list str :=
  match s with
  | [] => [[]]
  | c :: s' =>
      match skip with
      | S k => split_from sep k s'
      | O => if starts_with sep s
             then [] :: split_from sep (Nat.pred (length sep)) s'
             else push_char c (split_from sep O s')
      end
  end.

Definition split (sep s : str) : list str := split_from sep O s.

(** [sep.join(pieces)] *)
Fixpoint join (sep : str) (pieces : list str) : str :=
  match pieces with
  | [] => []
  | [p] => p
  | p :: ps => p ++ sep ++ join sep ps
  end.

(** [str(n)] for a non-negative integer *)
Definition str_of_nat (n : nat) : str :=
  py (NilEmpty.string_of_uint (Nat.to_uint n)).

(** Zero-padded decimal of at least [width] characters, as [%m] and the
    like print. *)
Definition zero_pad (width : nat) (n : nat) : str :=
  let d := str_of_nat n in
  repeat "0"%char (width - length d)%nat ++ d.

Definition digit_value (c : ascii) : Z := Z.of_N (code c) - 48.

(** The number a string of decimal digits denotes. *)
Definition digits_value (ds : str) : Z :=
  fold_left (fun acc c => 10 * acc + digit_value c) ds 0.

(** ** Exceptions *)

Inductive exn : Type :=
| ValueError (msg : str)
| IndexError (msg : str)
| AttributeError (msg : str)
| OtherException (msg : str).

Definition exn_str (e : exn) : str :=
  match e with
  | ValueError m | IndexError m | AttributeError m | OtherException m => m
  end.

Inductive result (A : Type) : Type :=
| Ok (a : A)
| Raise (e : exn).
Arguments Ok {A} a.
Arguments Raise {A} e.

#[global] Instance result_ret : MRet result := fun A a => Ok a.

#[global] Instance result_bind : MBind result := fun A B k m =>
  match m with
  | Ok a => k a
  | Raise e => Raise e
  end.

(** [sys.get_int_max_str_digits()], CPython's default. *)
Definition int_max_str_digits : nat := 4300.

(** [int(ds)] on a match of [\d+]: CPython refuses decimal strings longer
    than the limit with a ValueError. *)
Definition py_int (ds : str) : result Z :=
  if (int_max_str_digits <? length ds)%nat
  then Raise (ValueError (py "Exceeds the limit for integer string conversion"))
  else Ok (digits_value ds).

(** ** Floats (binary64) *)

Abbreviation float := spec_float.

Definition float_of_Z (z : Z) : float := binary_normalize 53 1024 z 0 false.

(** [float(ds)] on a match of [\d+]: the double nearest to the integer
    (infinity when it is too large); no length limit applies. *)
Definition py_float (ds : str) : float := float_of_Z (digits_value ds).

Definition float_div (x y : float) : float := SFdiv 53 1024 x y.
Definition float_lt (x y : float) : bool := SFltb x y.
Definition float_le (x y : float) : bool := SFleb x y.
Definition float_eq (x y : float) : bool := SFeqb x y.

Definition f_zero : float := S754_zero false.
Definition f_one : float := float_of_Z 1.
Definition f_ten : float := float_of_Z 10.
(** The literal [0.5] *)
Definition f_half : float := binary_normalize 53 1024 1 (-1) false.

(** ** Regular expressions

    The fragment of Python's [re] the source uses: a pattern is a sequence
    of literals, a greedy starred class and a captured group [(cls+)];
    matching is by backtracking, longest repetition first. *)

Inductive item : Type :=
| Lit (l : str)
| Star (cls : ascii -> bool)
| GroupPlus (cls : ascii -> bool).

(** [many cls k s]: let [cls] take the longest run it can at the head of
    [s] and hand the run and the rest to [k]; when [k] fails give one
    character back and try again. *)
Fixpoint many {R} (cls : ascii -> bool) (k : str -> str -> option R)
  (s : str) : option R :=
  match s with
  | c :: s' =>
      if cls c
      then match many cls (fun m r => k (c :: m) r) s' with
           | Some x => Some x
           | None => k [] s
           end
      else k [] s
  | [] => k [] s
  end.

(** Match the pattern at the head of [s]; the result lists the groups. *)
Fixpoint match_here (p : list item) (s : str) : option (list str) :=
  match p with
  | [] => Some []
  | Lit l :: p' =>
      if starts_with l s then match_here p' (skipn (length l) s) else None
  | Star cls :: p' => many cls (fun _ r => match_here p' r) s
  | GroupPlus cls :: p' =>
      many cls (fun m r => match m with
                           | [] => None
                           | _ :: _ => option_map (cons m) (match_here p' r)
                           end) s
  end.

(** [re.search(p, s)]: the match at the leftmost position that has one. *)
Fixpoint re_search (p : list item) (s : str) : option (list str) :=
  match match_here p s with
  | Some g => Some g
  | None => match s with
            | [] => None
            | _ :: s' => re_search p s'
            end
  end.

(** [m.group(1)] *)
Definition group1 (m : list str) : result str :=
  match m with
  | g :: _ => Ok g
  | [] => Raise (IndexError (py "no such group"))
  end.

(** The pattern of the snippet: a double quote, the group [([^dq]+)] of
    one or more other characters, a double quote. *)
Definition snippet_re : list item :=
  [Lit [dquote]; GroupPlus not_dquote; Lit [dquote]].

(** [NOTE_ID:\s*NOTE_(\d+)] *)
Definition note_id_re : list item :=
  [Lit (py "NOTE_ID:"); Star is_space; Lit (py "NOTE_"); GroupPlus is_digit].

(** [RELEVANCE:\s*(\d+)] *)
Definition relevance_re : list item :=
  [Lit (py "RELEVANCE:"); Star is_space; GroupPlus is_digit].

(** ** Domain model (domain/entities.py) *)

Inductive NoteType : Type := NURSING | THERAPY | CNA | SOCIAL_WORK | PHYSICIAN.

#[global] Instance NoteType_eq_dec : EqDecision NoteType.
Proof. solve_decision. Defined.

(** [note_type.value] *)
Definition NoteType_value (t : NoteType) : str :=
  match t with
  | NURSING => py "Nursing"
  | THERAPY => py "Therapy"
  | CNA => py "CNA"
  | SOCIAL_WORK => py "Social Work"
  | PHYSICIAN => py "Physician"
  end.

Record datetime : Type := {
  year : nat; month : nat; day : nat;
  hour : nat; minute : nat; second : nat; microsecond : nat
}.

(** [d.strftime('%m/%d/%Y %H:%M')]: month, day, hour and minute with two
    digits; [%Y] is the year as the C library prints it, in decimal and
    without padding, so a year below 1000 has fewer than four digits. *)
Definition strftime_mdY_HM (d : datetime) : str :=
  zero_pad 2 (month d) ++ py "/" ++ zero_pad 2 (day d) ++ py "/"
  ++ str_of_nat (year d) ++ py " "
  ++ zero_pad 2 (hour d) ++ py ":" ++ zero_pad 2 (minute d).

Module Author.
Record t : Type := { name : str; title : str }.
(** [__str__] *)
Definition to_str (a : t) : str := name a ++ py ", " ++ title a.
End Author.

Module ClinicalNote.
Record t : Type := {
  id : str;
  resident_id : str;
  content : str;
  note_type : NoteType;
  author : Author.t;
  created_at : datetime
}.
End ClinicalNote.

Module Resident.
Record t : Type := {
  id : str;
  name : str;
  room_number : str;
  admission_date : datetime
}.
(** [__str__] *)
Definition to_str (r : t) : str :=
  name r ++ py " (Room " ++ room_number r ++ py ")".
End Resident.

Module QueryResult.
Record t : Type := {
  snippet : str;
  source_note : ClinicalNote.t;
  relevance_score : float
}.
Definition quoted_snippet (r : t) : str := [dquote] ++ snippet r ++ [dquote].
End QueryResult.

Module SearchResults.
Record t : Type := {
  query : str;
  resident : option Resident.t;
  results : list QueryResult.t;
  summary : str
}.

Definition count (s : t) : nat := length (results s).

Definition has_note_type (note_type : NoteType) (r : QueryResult.t) : bool :=
  bool_decide (ClinicalNote.note_type (QueryResult.source_note r) = note_type).

Definition filtered_summary (note_type : NoteType) (n : nat) : str :=
  py "Filtered results for " ++ NoteType_value note_type ++ py ": "
  ++ str_of_nat n ++ py " notes found".

(** The value [filter_by_note_type] builds from the fields of [self]. *)
Definition filter_by_note_type (self : t) (note_type : NoteType) : t :=
  let filtered_results := List.filter (has_note_type note_type) (results self) in
  {| query := query self;
     resident := resident self;
     results := filtered_results;
     summary := filtered_summary note_type (length filtered_results) |}.
End SearchResults.

(** ** The object store

    A [SearchResults] object holds a reference to its list of results; the
    list is a mutable Python object of its own.  [QueryResult], notes and
    residents are frozen values without identity. *)

Abbreviation loc := positive.

Inductive object : Type :=
| ListObject (items : list QueryResult.t)
| SearchResultsObject (query : str) (resident : option Resident.t)
    (results : loc) (summary : str).

Abbreviation heap := (gmap loc object).

Definition alloc (h : heap) (o : object) : loc * heap :=
  let l := fresh (dom h) in (l, <[l := o]> h).

(** The value of the [SearchResults] object at [l]. *)
Definition read_search_results (h : heap) (l : loc) : option SearchResults.t :=
  match h !! l with
  | Some (SearchResultsObject q r res sm) =>
      match h !! res with
      | Some (ListObject items) =>
          Some {| SearchResults.query := q; SearchResults.resident := r;
                  SearchResults.results := items; SearchResults.summary := sm |}
      | _ => None
      end
  | _ => None
  end.

(** [self.filter_by_note_type(note_type)] on the store: the comprehension
    allocates a list, the constructor an object; nothing is written
    elsewhere. *)
Definition filter_by_note_type_on (h : heap) (self : loc) (note_type : NoteType)
  : option (loc * heap) :=
  match h !! self with
  | Some (SearchResultsObject q r res _) =>
      match h !! res with
      | Some (ListObject items) =>
          let filtered_results :=
            List.filter (SearchResults.has_note_type note_type) items in
          let '(lf, h1) := alloc h (ListObject filtered_results) in
          let '(ls, h2) :=
            alloc h1 (SearchResultsObject q r lf
                        (SearchResults.filtered_summary note_type
                           (length filtered_results))) in
          Some (ls, h2)
      | _ => None
      end
  | _ => None
  end.

(** ** [list.sort(key=..., reverse=True)]

    Python's sort is stable and compares keys with [<] only; with
    [reverse=True] the order is descending and equal keys keep their
    original order.  [insert_desc] puts an element after the elements that
    are greater and before the first one that is not. *)

Section Sort.
Context {A : Type} (key : A -> float).

Fixpoint insert_desc (x : A) (l : list A) : list A :=
  match l with
  | [] => [x]
  | y :: l' =>
      if float_lt (key x) (key y) then y :: insert_desc x l' else x :: l
  end.

Definition sort_desc (l : list A) : list A := fold_right insert_desc [] l.
End Sort.

(** ** Extraction protocol codec (infrastructure/gemini_service.py) *)

Fixpoint enumerate_from {A} (i : nat) (l : list A) : list (nat * A) :=
  match l with
  | [] => []
  | x :: l' => (i, x) :: enumerate_from (S i) l'
  end.

Module GeminiQueryProcessor.

Definition note_block (i : nat) (note : ClinicalNote.t) : str :=
  py "NOTE_" ++ str_of_nat i ++ py ":" ++ [newline]
  ++ py "Type: " ++ NoteType_value (ClinicalNote.note_type note) ++ [newline]
  ++ py "Author: " ++ Author.to_str (ClinicalNote.author note) ++ [newline]
  ++ py "Date: " ++ strftime_mdY_HM (ClinicalNote.created_at note) ++ [newline]
  ++ py "Content: " ++ ClinicalNote.content note ++ [newline]
  ++ py "---".

Definition _prepare_context (clinical_notes : list ClinicalNote.t) : str :=
  join [newline]
    (map (fun '(i, note) => note_block i note) (enumerate_from 0 clinical_notes)).

Definition _create_search_prompt (query context : str) : str :=
  join [newline]
    [ [];
      py "You are an expert MDS coordinator assistant. Your task is to find relevant clinical evidence from nursing home documentation.";
      [];
      py "QUERY: " ++ query;
      [];
      py "CLINICAL NOTES:";
      context;
      [];
      py "Instructions:";
      py "1. Find direct quotes from the clinical notes that are relevant to the query";
      py "2. Return ONLY the most relevant sentences or phrases (not entire paragraphs)";
      py "3. Include the NOTE_X identifier for each relevant snippet";
      py "4. Format your response as:";
      py "   SNIPPET: " ++ [dquote] ++ py "exact quote from note" ++ [dquote];
      py "   NOTE_ID: NOTE_X";
      py "   RELEVANCE: score from 1-10";
      py "   ";
      py "5. Return up to 5 most relevant snippets";
      py "6. Only include snippets that directly answer or relate to the query";
      [];
      py "Response format:";
      py "SNIPPET: " ++ [dquote] ++ py "quote here" ++ [dquote];
      py "NOTE_ID: NOTE_0";
      py "RELEVANCE: 8";
      [];
      py "SNIPPET: " ++ [dquote] ++ py "another quote" ++ [dquote];
      py "NOTE_ID: NOTE_2  ";
      py "RELEVANCE: 7";
      [] ].

(** [clinical_notes[note_index]] for an index that is not negative *)
Definition getitem (clinical_notes : list ClinicalNote.t) (note_index : Z)
  : result ClinicalNote.t :=
  match nth_error clinical_notes (Z.to_nat note_index) with
  | Some note => Ok note
  | None => Raise (IndexError (py "list index out of range"))
  end.

(** The body of the loop of [_parse_search_response] for one section:
    [Ok None] is [continue], [Ok (Some r)] is [results.append(r)]. *)
Definition parse_section (clinical_notes : list ClinicalNote.t) (section : str)
  : result (option QueryResult.t) :=
  match re_search snippet_re section with
  | None => Ok None
  | Some snippet_match =>
      snippet ← group1 snippet_match;
      match re_search note_id_re section with
      | None => Ok None
      | Some note_id_match =>
          note_index ← (group1 note_id_match ≫= py_int);
          relevance_score ←
            match re_search relevance_re section with
            | Some relevance_match =>
                ds ← group1 relevance_match;
                Ok (float_div (py_float ds) f_ten)
            | None => Ok f_half
            end;
          if Z.of_nat (length clinical_notes) <=? note_index
          then Ok None
          else
            note ← getitem clinical_notes note_index;
            Ok (Some {| QueryResult.snippet := snippet;
                        QueryResult.source_note := note;
                        QueryResult.relevance_score := relevance_score |})
      end
  end.

(** [except (ValueError, IndexError, AttributeError): continue] *)
Definition caught (e : exn) : bool :=
  match e with
  | ValueError _ | IndexError _ | AttributeError _ => true
  | OtherException _ => false
  end.

(** The loop over the sections, collecting [results] in order. *)
Fixpoint parse_sections (clinical_notes : list ClinicalNote.t)
  (sections : list str) : result (list QueryResult.t) :=
  match sections with
  | [] => Ok []
  | section :: rest =>
      match parse_section clinical_notes section with
      | Ok (Some r) =>
          results ← parse_sections clinical_notes rest; Ok (r :: results)
      | Ok None => parse_sections clinical_notes rest
      | Raise e =>
          if caught e then parse_sections clinical_notes rest else Raise e
      end
  end.

(** [response_text.split("SNIPPET:")[1:]] *)
Definition sections_of (response_text : str) : list str :=
  tail (split (py "SNIPPET:") response_text).

Definition _parse_search_response (response_text : str)
  (clinical_notes : list ClinicalNote.t) : result (list QueryResult.t) :=
  results ← parse_sections clinical_notes (sections_of response_text);
  Ok (sort_desc QueryResult.relevance_score results).

(** [process_query].  [generate_content prompt] stands for
    [self.model.generate_content(prompt).text]: the reply text, or the
    exception the call or the access raised.  The second component is
    what was printed. *)
Definition process_query (generate_content : str -> result str)
  (query : str) (clinical_notes : list ClinicalNote.t)
  : result (list QueryResult.t) * list str :=
  let context := _prepare_context clinical_notes in
  let prompt := _create_search_prompt query context in
  match (response_text ← generate_content prompt;
         _parse_search_response response_text clinical_notes) with
  | Ok results => (Ok results, [])
  | Raise e =>
      (Ok [], [py "Error processing query with Gemini: " ++ exn_str e])
  end.

(** The dictionary of [_extract_evidence_type], in insertion order. *)
Definition evidence_mapping : list (str * str) :=
  [ (py "depression", py "symptoms of depression");
    (py "mood", py "mood-related symptoms");
    (py "fall", py "fall risk or incidents");
    (py "assist", py "assistance requirements");
    (py "transfer", py "transfer assistance needs");
    (py "cognitive", py "cognitive impairment");
    (py "behavior", py "behavioral symptoms");
    (py "pain", py "pain indicators");
    (py "medication", py "medication-related issues") ].

Fixpoint first_description (mapping : list (str * str)) (query_lower : str)
  : option str :=
  match mapping with
  | [] => None
  | (keyword, description) :: rest =>
      if contains keyword query_lower then Some description
      else first_description rest query_lower
  end.

Definition _extract_evidence_type (query : str) : option str :=
  let query_lower := lower query in
  first_description evidence_mapping query_lower.

Definition generate_summary (query : str) (results : list QueryResult.t) : str :=
  match results with
  | [] => py "No relevant clinical evidence found for your query."
  | _ :: _ =>
      let count := length results in
      match _extract_evidence_type query with
      | Some ((_ :: _) as evidence_type) =>
          py "I found " ++ str_of_nat count ++ py " notes that may indicate "
          ++ evidence_type ++ py ":"
      | _ =>
          py "I found " ++ str_of_nat count ++ py " relevant notes for your query:"
      end
  end.

End GeminiQueryProcessor.

(** ** Search orchestrator (use_cases/interfaces.py)

    The use case talks to its collaborators (the clock, the note
    repository, the AI processor) through calls; a program is a tree of
    calls, and running it against handlers records the calls made. *)

Inductive call : Type -> Type :=
| DatetimeNow : call datetime
| FindByResidentId (resident_id : str) (since_date : option datetime)
  : call (list ClinicalNote.t)
| ProcessQuery (query : str) (clinical_notes : list ClinicalNote.t)
  : call (list QueryResult.t)
| GenerateSummary (query : str) (results : list QueryResult.t) : call str.

Inductive prog (A : Type) : Type :=
| Ret (a : A)
| Throw (e : exn)
| Call {X : Type} (c : call X) (k : X -> prog A).
Arguments Ret {A} a.
Arguments Throw {A} e.
Arguments Call {A X} c k.

Inductive event : Type :=
| Called {X : Type} (c : call X).

(** Is the event a call to the codec ([process_query], [generate_summary])? *)
Definition is_codec_call (ev : event) : bool :=
  match ev with
  | Called (ProcessQuery _ _) | Called (GenerateSummary _ _) => true
  | Called _ => false
  end.

Section Run.
Context {W : Type}.
(** The collaborators: each call answers or raises, and may change the
    collaborators' state [W]. *)
Variable handle : forall X, call X -> W -> result X * W.

Fixpoint run {A} (p : prog A) (w : W) : result A * W * list event :=
  match p with
  | Ret a => (Ok a, w, [])
  | Throw e => (Raise e, w, [])
  | Call c k =>
      match handle _ c w with
      | (Ok x, w') =>
          let '(r, w'', trace) := run (k x) w' in (r, w'', Called c :: trace)
      | (Raise e, w') => (Raise e, w', [Called c])
      end
  end.
End Run.

Module SearchClinicalNotesUseCase.
Section UseCase.
(** [now - timedelta(days=lookback_days)], from Python's [datetime]; it
    raises OverflowError outside the supported range. *)
Variable minus_days : datetime -> Z -> result datetime.

Definition lift {A B} (m : result A) (k : A -> prog B) : prog B :=
  match m with
  | Ok a => k a
  | Raise e => Throw e
  end.

Definition execute (lookback_days : Z) (resident_id query : str)
  : prog SearchResults.t :=
  Call DatetimeNow (fun now =>
  lift (minus_days now lookback_days) (fun since_date =>
  Call (FindByResidentId resident_id (Some since_date)) (fun notes =>
  match notes with
  | [] =>
      Ret {| SearchResults.query := query;
             SearchResults.resident := None;
             SearchResults.results := [];
             SearchResults.summary :=
               py "No clinical notes found for the specified time period." |}
  | _ :: _ =>
      Call (ProcessQuery query notes) (fun results =>
      Call (GenerateSummary query results) (fun summary =>
      Ret {| SearchResults.query := query;
             SearchResults.resident := None;
             SearchResults.results := results;
             SearchResults.summary := summary |}))
  end))).
End UseCase.
End SearchClinicalNotesUseCase.

(** ** Vocabulary of the specification

    What the specification calls an occurrence of a field in a reply
    fragment, stated on the text itself and independently of the matcher. *)

(** [p] occurs in [s] as a substring. *)
Definition occurs_in (p s : str) : Prop := exists a b, s = a ++ p ++ b.

Definition all_of (cls : ascii -> bool) (s : str) : Prop :=
  Forall (fun c => cls c = true) s.

(** The run before [post] cannot be extended by a character of [cls]. *)
Definition ends_run (cls : ascii -> bool) (post : str) : Prop :=
  match post with
  | c :: _ => cls c = false
  | [] => True
  end.

(** A double-quoted, non-empty, quote-free text [q] starts after [pre]. *)
Definition quoted_at (f pre q : str) : Prop :=
  exists post, f = pre ++ dquote :: q ++ dquote :: post
               /\ q <> [] /\ all_of not_dquote q.

(** [NOTE_ID:], white space, [NOTE_] and the digits [ds] start after [pre]. *)
Definition note_id_at (f pre ds : str) : Prop :=
  exists ws post, f = pre ++ py "NOTE_ID:" ++ ws ++ py "NOTE_" ++ ds ++ post
                  /\ all_of is_space ws /\ ds <> [] /\ all_of is_digit ds
                  /\ ends_run is_digit post.

(** [RELEVANCE:], white space and the digits [ds] start after [pre]. *)
Definition relevance_at (f pre ds : str) : Prop :=
  exists ws post, f = pre ++ py "RELEVANCE:" ++ ws ++ ds ++ post
                  /\ all_of is_space ws /\ ds <> [] /\ all_of is_digit ds
                  /\ ends_run is_digit post.

(** [x] is what the leftmost occurrence carries. *)
Definition first_at (occ : str -> str -> Prop) (x : str) : Prop :=
  exists pre, occ pre x /\ forall pre' x', occ pre' x' -> (length pre <= length pre')%nat.

Definition first_quoted (f q : str) : Prop := first_at (quoted_at f) q.
Definition first_note_id (f ds : str) : Prop := first_at (note_id_at f) ds.
Definition first_relevance (f ds : str) : Prop := first_at (relevance_at f) ds.

Definition has_quoted (f : str) : Prop := exists pre q, quoted_at f pre q.

(** Some [NOTE_ID: NOTE_<digits>] occurs in [f] (any number of its digits). *)
Definition has_note_id (f : str) : Prop :=
  exists pre ws ds post,
    f = pre ++ py "NOTE_ID:" ++ ws ++ py "NOTE_" ++ ds ++ post
    /\ all_of is_space ws /\ ds <> [] /\ all_of is_digit ds.

(** Some [RELEVANCE: <digits>] occurs in [f]. *)
Definition has_relevance (f : str) : Prop :=
  exists pre ws ds post,
    f = pre ++ py "RELEVANCE:" ++ ws ++ ds ++ post
    /\ all_of is_space ws /\ ds <> [] /\ all_of is_digit ds.

(** A fragment the specification calls malformed for a list of notes. *)
Definition malformed (clinical_notes : list ClinicalNote.t) (f : str) : Prop :=
  ~ has_quoted f
  \/ ~ has_note_id f
  \/ exists ds, first_note_id f ds
                /\ Z.of_nat (length clinical_notes) <= digits_value ds.

(** What one fragment contributes to [results]. *)
Definition contribution (clinical_notes : list ClinicalNote.t) (f : str)
  : option QueryResult.t :=
  match GeminiQueryProcessor.parse_section clinical_notes f with
  | Ok (Some r) => Some r
  | _ => None
  end.

(** Results in descending order of [key], position by position. *)
Definition descending {A} (key : A -> float) (l : list A) : Prop :=
  forall i a b, nth_error l i = Some a -> nth_error l (S i) = Some b ->
                float_le (key b) (key a) = true.

(** The elements of [l] whose key equals [v], in the order of [l]. *)
Definition with_key {A} (key : A -> float) (v : float) (l : list A) : list A :=
  List.filter (fun x => float_eq (key x) v) l.

(** The order and the keys the sort is judged by. *)
Definition ge_key {A} (key : A -> float) (a b : A) : Prop :=
  float_le (key b) (key a) = true.

(** The key of [a] is a number at least zero (so not a NaN). *)
Definition number_key {A} (key : A -> float) (a : A) : Prop :=
  float_le f_zero (key a) = true.

(** The relevance the loop body computes for a fragment. *)
Definition relevance_of (f : str) : float :=
  match re_search relevance_re f with
  | Some (ds :: _) => float_div (py_float ds) f_ten
  | _ => f_half
  end.

(** ** An instance of the calendar

    [datetime - timedelta(days=n)] on the proleptic Gregorian calendar,
    by way of the day number; the time of day is kept. *)

Definition days_from_civil (y m d : Z) : Z :=
  let y := if m <=? 2 then y - 1 else y in
  let era := y / 400 in
  let yoe := y - era * 400 in
  let doy := (153 * (if 2 <? m then m - 3 else m + 9) + 2) / 5 + d - 1 in
  let doe := yoe * 365 + yoe / 4 - yoe / 100 + doy in
  era * 146097 + doe - 719468.

Definition civil_from_days (z : Z) : Z * Z * Z :=
  let z := z + 719468 in
  let era := z / 146097 in
  let doe := z - era * 146097 in
  let yoe := (doe - doe / 1460 + doe / 36524 - doe / 146096) / 365 in
  let doy := doe - (365 * yoe + yoe / 4 - yoe / 100) in
  let mp := (5 * doy + 2) / 153 in
  let d := doy - (153 * mp + 2) / 5 + 1 in
  let m := if mp <? 10 then mp + 3 else mp - 9 in
  ((yoe + era * 400) + (if m <=? 2 then 1 else 0), m, d).

Definition datetime_minus_days (now : datetime) (days : Z) : result datetime :=
  if 999999999 <? Z.abs days
  then Raise (OtherException (py "days out of range"))
  else
    let n := days_from_civil (Z.of_nat (year now)) (Z.of_nat (month now))
               (Z.of_nat (day now)) - days in
    let '(y, m, d) := civil_from_days n in
    if (1 <=? y) && (y <=? 9999)
    then Ok {| year := Z.to_nat y; month := Z.to_nat m; day := Z.to_nat d;
               hour := hour now; minute := minute now; second := second now;
               microsecond := microsecond now |}
    else Raise (OtherException (py "date value out of range")).

(** ** Sample data, for the scenarios of the specification *)

Definition sample_author : Author.t :=
  {| Author.name := py "Test Nurse"; Author.title := py "RN" |}.

Definition sample_datetime : datetime :=
  {| year := 2025; month := 8; day := 15; hour := 14; minute := 30;
     second := 0; microsecond := 0 |}.

Definition sample_note (content : string) (note_type : NoteType) : ClinicalNote.t :=
  {| ClinicalNote.id := py "NOTE_001";
     ClinicalNote.resident_id := py "RES001";
     ClinicalNote.content := py content;
     ClinicalNote.note_type := note_type;
     ClinicalNote.author := sample_author;
     ClinicalNote.created_at := sample_datetime |}.

Definition fell_note : ClinicalNote.t :=
  sample_note "Resident fell twice this week" NURSING.

Definition assist_note : ClinicalNote.t :=
  sample_note "Required two-person assist for transfer" THERAPY.

(** One entry of a reply: [SNIPPET: dq quote dq rest]. *)
Definition entry (quote rest : string) : str :=
  py "SNIPPET: " ++ [dquote] ++ py quote ++ [dquote] ++ py rest.

(** The text of an entry after its [SNIPPET:] token. *)
Definition fragment (quote rest : string) : str :=
  py " " ++ [dquote] ++ py quote ++ [dquote] ++ py rest.

Definition sample_result (quote : string) (note : ClinicalNote.t) (score : float)
  : QueryResult.t :=
  {| QueryResult.snippet := py quote;
     QueryResult.source_note := note;
     QueryResult.relevance_score := score |}.

(** [0.9] and [9.9] as doubles *)
Definition f_0_9 : float := S754_finite false 8106479329266893 (-53).
Definition f_9_9 : float := S754_finite false 5573204538870989 (-49).

(** A note store without notes, and an AI processor that finds nothing. *)
Definition empty_store (X : Type) (c : call X) (w : unit) : result X * unit :=
  match c in call X return result X * unit with
  | DatetimeNow => (Ok sample_datetime, w)
  | FindByResidentId _ _ => (Ok [], w)
  | ProcessQuery _ _ => (Ok [], w)
  | GenerateSummary _ _ => (Ok [], w)
  end.

Definition two_notes : list ClinicalNote.t := [fell_note; assist_note].

(** A reply whose second entry names a note that was not supplied. *)
Definition reply_with_bad_index : str :=
  py "Here you go." ++ entry "fell twice" " NOTE_ID: NOTE_0 RELEVANCE: 9 "
  ++ entry "not there" " NOTE_ID: NOTE_5 RELEVANCE: 10 "
  ++ entry "two-person assist" " NOTE_ID: NOTE_1 RELEVANCE: 7".

(** A reply of six well-formed entries. *)
Definition six_entries : str :=
  concat (repeat (entry "fell" " NOTE_ID: NOTE_0 RELEVANCE: 7 ") 6).

(** A reply of three entries: one without a rating, then two with the same
    rating. *)
Definition tied_reply : str :=
  entry "steady gait" " NOTE_ID: NOTE_0 "
  ++ entry "Resident fell twice" " NOTE_ID: NOTE_0 RELEVANCE: 9 "
  ++ entry "two-person assist" " NOTE_ID: NOTE_1 RELEVANCE: 9".

(** A store with one [SearchResults] object (at 2) and its list (at 1). *)
Definition sample_heap : heap :=
  <[2%positive := SearchResultsObject (py "any falls?") None 1%positive
                    (py "I found 2 relevant notes for your query:")]>
    (<[1%positive := ListObject [sample_result "fell twice" fell_note f_0_9;
                                 sample_result "two-person assist" assist_note f_half]]>
       ∅).

(** ** Tactics *)

(** Invert [option_map f m = Some x]. *)
Ltac some_inv H :=
  match type of H with
  | option_map _ ?m = Some _ =>
      let E := fresh "E" in
      destruct m eqn:E; simpl in H; [| discriminate H]
  end.

(** ** Comparisons and sorting on any key *)

(** [a == b] on strings *)
Fixpoint str_eqb (a b : str) : bool :=
  match a, b with
  | [], [] => true
  | x :: a', y :: b' => Ascii.eqb x y && str_eqb a' b'
  | _, _ => false
  end.

(** Python's stable sort by [key], for any order on the keys:
    [precedes k1 k2] tells that an element with key [k1] has to come
    before one with key [k2] ([k1 < k2] for an ascending sort, [k2 < k1]
    with [reverse=True]). *)
Section SortOn.
Context {A K : Type} (precedes : K -> K -> bool) (key : A -> K).

Fixpoint insert_on (x : A) (l : list A) : list A :=
  match l with
  | [] => [x]
  | y :: l' =>
      if precedes (key y) (key x) then y :: insert_on x l' else x :: l
  end.

Definition sort_on (l : list A) : list A := fold_right insert_on [] l.
End SortOn.

(** [a] and [b] carry numbers, and [a] is not below [b]. *)
Definition number_ge {A} (key : A -> float) (a b : A) : Prop :=
  number_key key a /\ number_key key b /\ ge_key key a b.

(** [a] may stand before [b] in a list sorted by [precedes]: [b] need not
    come first. *)
Definition in_order {A K} (precedes : K -> K -> bool) (key : A -> K) (a b : A)
  : Prop :=
  precedes (key b) (key a) = false.

(** A naive [datetime] compares like the tuple of its fields. *)
Definition datetime_fields (d : datetime) : list nat :=
  [year d; month d; day d; hour d; minute d; second d; microsecond d].

Fixpoint lex_lt (a b : list nat) : bool :=
  match a, b with
  | x :: a', y :: b' => (x <? y)%nat || ((x =? y)%nat && lex_lt a' b')
  | [], _ :: _ => true
  | _, [] => false
  end.

(** [a < b] and [a >= b] on datetimes *)
Definition datetime_lt (a b : datetime) : bool :=
  lex_lt (datetime_fields a) (datetime_fields b).
Definition datetime_ge (a b : datetime) : bool := negb (datetime_lt a b).

#[global] Instance datetime_eq_dec : EqDecision datetime.
Proof. solve_decision. Defined.

(** [later k1 k2]: the order of [sort(key=created_at, reverse=True)] *)
Definition later (k1 k2 : datetime) : bool := datetime_lt k2 k1.

(** ** Dictionaries

    A Python [dict] with string keys, as the list of its items in
    insertion order; assigning to a key that is present replaces the value
    in place. *)

Fixpoint dict_set {V} (k : str) (v : V) (d : list (str * V)) : list (str * V) :=
  match d with
  | [] => [(k, v)]
  | (k', v') :: d' =>
      if str_eqb k' k then (k', v) :: d' else (k', v') :: dict_set k v d'
  end.

(** [d.get(k)] *)
Fixpoint dict_get {V} (k : str) (d : list (str * V)) : option V :=
  match d with
  | [] => None
  | (k', v) :: d' => if str_eqb k' k then Some v else dict_get k d'
  end.

(** [list(d.values())] *)
Definition dict_values {V} (d : list (str * V)) : list V := map snd d.

(** ** Repositories (infrastructure/repositories.py) *)

Module MockResidentRepository.
Section Repository.
(** [now - timedelta(days=n)], as in the use case. *)
Variable minus_days : datetime -> Z -> result datetime.

(** One dictionary of [resident_data]. *)
Record resident_datum : Type := {
  data_id : str;
  data_name : str;
  data_room : str;
  data_admission_date : datetime
}.

(** The loop of [_create_mock_residents]: [residents[resident.id] = resident]
    for each datum in turn. *)
Definition store_residents (resident_data : list resident_datum)
  : list (str * Resident.t) :=
  fold_left
    (fun residents data =>
       let resident := {| Resident.id := data_id data;
                          Resident.name := data_name data;
                          Resident.room_number := data_room data;
                          Resident.admission_date := data_admission_date data |} in
       dict_set (Resident.id resident) resident residents)
    resident_data [].

(** [_create_mock_residents]: the clock is read once for each resident. *)
Definition _create_mock_residents : prog (list (str * Resident.t)) :=
  Call DatetimeNow (fun now1 =>
  SearchClinicalNotesUseCase.lift (minus_days now1 30) (fun admission1 =>
  Call DatetimeNow (fun now2 =>
  SearchClinicalNotesUseCase.lift (minus_days now2 45) (fun admission2 =>
  Call DatetimeNow (fun now3 =>
  SearchClinicalNotesUseCase.lift (minus_days now3 20) (fun admission3 =>
  Ret (store_residents
         [ {| data_id := py "RES001"; data_name := py "Mary Johnson";
              data_room := py "101A"; data_admission_date := admission1 |};
           {| data_id := py "RES002"; data_name := py "Robert Williams";
              data_room := py "102B"; data_admission_date := admission2 |};
           {| data_id := py "RES003"; data_name := py "Dorothy Smith";
              data_room := py "103A"; data_admission_date := admission3 |} ]))))))).

Definition find_all (_residents : list (str * Resident.t)) : list Resident.t :=
  dict_values _residents.

Definition find_by_id (_residents : list (str * Resident.t)) (resident_id : str)
  : option Resident.t :=
  dict_get resident_id _residents.
End Repository.
End MockResidentRepository.

Module MockClinicalNoteRepository.

(** [find_by_resident_id] on the notes [_notes] of the repository. *)
Definition find_by_resident_id (_notes : list ClinicalNote.t)
  (resident_id : str) (since_date : option datetime) : list ClinicalNote.t :=
  let resident_notes :=
    List.filter (fun note => str_eqb (ClinicalNote.resident_id note) resident_id)
      _notes in
  let resident_notes :=
    match since_date with
    | Some since_date =>
        List.filter
          (fun note => datetime_ge (ClinicalNote.created_at note) since_date)
          resident_notes
    | None => resident_notes
    end in
  sort_on later ClinicalNote.created_at resident_notes.

(** The condition of the two comprehensions of [find_by_resident_id]: the
    note is the resident's and, when a date is given, not older than it. *)
Definition selects (resident_id : str) (since_date : option datetime)
  (note : ClinicalNote.t) : bool :=
  str_eqb (ClinicalNote.resident_id note) resident_id
  && match since_date with
     | Some since_date => datetime_ge (ClinicalNote.created_at note) since_date
     | None => true
     end.

(** The notes created at [v], in the order of [l]. *)
Definition created_at_is (v : datetime) (l : list ClinicalNote.t)
  : list ClinicalNote.t :=
  List.filter (fun note => bool_decide (ClinicalNote.created_at note = v)) l.

(** One dictionary of the note data of [_create_mock_notes]. *)
Record note_entry : Type := {
  data_content : str;
  data_note_type : NoteType;
  data_author : Author.t;
  data_days_ago : Z
}.

Definition note_datum (content : string) (note_type : NoteType)
  (author : Author.t) (days_ago : Z) : note_entry :=
  {| data_content := py content; data_note_type := note_type;
     data_author := author; data_days_ago := days_ago |}.

Definition mk_author (name title : string) : Author.t :=
  {| Author.name := py name; Author.title := py title |}.

Definition mary_notes : list note_entry :=
  [ note_datum
      "Resident stated 'I just don't feel like getting out of bed anymore.' Tearful during conversation. Declined to participate in activities. Appetite appears decreased."
      NURSING (mk_author "A. Smith" "RN") 3;
    note_datum
      "Refused to participate in morning group activities, stating 'what's the point?' Remained in room most of the day. Observed staring out window for extended periods."
      CNA (mk_author "D. Jones" "CNA") 5;
    note_datum
      "Family reports resident seems 'more withdrawn and sad than usual' since last week. Daughter concerned about mother's mood changes."
      SOCIAL_WORK (mk_author "M. Chen" "LSW") 7;
    note_datum
      "Transfer from bed to wheelchair required assistance of 2 staff members due to weakness and unsteady gait. Resident cooperative but needed significant support."
      NURSING (mk_author "B. Rodriguez" "RN") 2;
    note_datum
      "Ambulation assessment: Resident able to walk 10 feet with walker and standby assistance. Gait unsteady, requires verbal cues for safety."
      THERAPY (mk_author "J. Thompson" "PT") 4 ].

Definition robert_notes : list note_entry :=
  [ note_datum
      "Resident found on floor next to bed at 0230. No apparent injury. States he was trying to get to bathroom independently. Vitals stable."
      NURSING (mk_author "C. Davis" "RN") 1;
    note_datum
      "Confusion noted during medication administration. Resident asked same question multiple times and did not recognize evening CNA."
      CNA (mk_author "L. Wilson" "CNA") 2;
    note_datum
      "Cognitive assessment shows decline in short-term memory. Mini-Mental State Exam score decreased from 24 to 19 over past month."
      NURSING (mk_author "A. Smith" "RN") 6;
    note_datum
      "Fall risk assessment completed. Score indicates high risk due to impaired judgment and history of falls. Bed alarm activated."
      NURSING (mk_author "E. Martinez" "RN") 1 ].

Definition dorothy_notes : list note_entry :=
  [ note_datum
      "Resident reports pain level 8/10 in lower back. Became agitated when asked to participate in physical therapy. Requested additional pain medication."
      NURSING (mk_author "F. Brown" "RN") 1;
    note_datum
      "Exhibited aggressive behavior during personal care. Verbally abusive to staff, stating 'leave me alone' repeatedly. Required de-escalation techniques."
      CNA (mk_author "G. Taylor" "CNA") 3;
    note_datum
      "Pain management consultation requested. Current regimen appears inadequate for controlling chronic back pain. Considering adjustment to medication schedule."
      PHYSICIAN (mk_author "Dr. H. Patel" "MD") 4;
    note_datum
      "Behavioral triggers appear related to pain episodes. Implemented comfort measures and scheduled pain assessment every 4 hours."
      NURSING (mk_author "A. Smith" "RN") 2 ].

Section Repository.
Variable minus_days : datetime -> Z -> result datetime.

(** One of the three loops of [_create_mock_notes]: every datum becomes a
    note numbered after the notes that are already there. *)
Fixpoint append_notes (base_date : datetime) (resident_id : str)
  (data : list note_entry) (notes : list ClinicalNote.t)
  : result (list ClinicalNote.t) :=
  match data with
  | [] => Ok notes
  | note_data :: rest =>
      created_at ← minus_days base_date (data_days_ago note_data);
      append_notes base_date resident_id rest
        (notes ++ [ {| ClinicalNote.id :=
                         py "NOTE_" ++ zero_pad 3 (length notes + 1);
                       ClinicalNote.resident_id := resident_id;
                       ClinicalNote.content := data_content note_data;
                       ClinicalNote.note_type := data_note_type note_data;
                       ClinicalNote.author := data_author note_data;
                       ClinicalNote.created_at := created_at |} ])
  end.

Definition _create_mock_notes : prog (list ClinicalNote.t) :=
  Call DatetimeNow (fun base_date =>
  SearchClinicalNotesUseCase.lift
    (notes ← append_notes base_date (py "RES001") mary_notes [];
     notes ← append_notes base_date (py "RES002") robert_notes notes;
     append_notes base_date (py "RES003") dorothy_notes notes)
    Ret).
End Repository.
End MockClinicalNoteRepository.

(** ** The wired application (main.py, [create_app])

    The use case with the mock note repository and the Gemini processor
    behind it; the state is what has been printed. *)
Definition app_handle (now : datetime) (_notes : list ClinicalNote.t)
  (generate_content : str -> result str)
  (X : Type) (c : call X) (printed : list str) : result X * list str :=
  match c in call X return result X * list str with
  | DatetimeNow => (Ok now, printed)
  | FindByResidentId resident_id since_date =>
      (Ok (MockClinicalNoteRepository.find_by_resident_id _notes resident_id
             since_date), printed)
  | ProcessQuery query clinical_notes =>
      let '(results, lines) :=
        GeminiQueryProcessor.process_query generate_content query clinical_notes in
      (results, printed ++ lines)
  | GenerateSummary query results =>
      (Ok (GeminiQueryProcessor.generate_summary query results), printed)
  end.

(** The notes of a store are numbered in order: [NOTE_001], [NOTE_002], ... *)
Definition numbered (notes : list ClinicalNote.t) : Prop :=
  forall i note, nth_error notes i = Some note ->
                 ClinicalNote.id note = py "NOTE_" ++ zero_pad 3 (i + 1).

(** ** The controller (adapters/controllers.py)

    The controller talks to the collaborators of the search use case and
    to the resident repository. *)

Inductive app_call : Type -> Type :=
| UseCase {X : Type} (c : call X) : app_call X
| FindById (resident_id : str) : app_call (option Resident.t)
| FindAll : app_call (list Resident.t).

Inductive proc (A : Type) : Type :=
| Done (a : A)
| Abort (e : exn)
| Do {X : Type} (c : app_call X) (k : X -> proc A).
Arguments Done {A} a.
Arguments Abort {A} e.
Arguments Do {A X} c k.

Inductive app_event : Type :=
| AppCalled {X : Type} (c : app_call X).

(** A program of the use case, as a program of the application. *)
Fixpoint embed {A} (p : prog A) : proc A :=
  match p with
  | Ret a => Done a
  | Throw e => Abort e
  | Call c k => Do (UseCase c) (fun x => embed (k x))
  end.

(** [p] and then [k] on its result *)
Fixpoint and_then {A B} (p : proc A) (k : A -> proc B) : proc B :=
  match p with
  | Done a => k a
  | Abort e => Abort e
  | Do c k' => Do c (fun x => and_then (k' x) k)
  end.

Section RunApp.
Context {W : Type}.
Variable handle : forall X, app_call X -> W -> result X * W.

Fixpoint run_app {A} (p : proc A) (w : W) : result A * W * list app_event :=
  match p with
  | Done a => (Ok a, w, [])
  | Abort e => (Raise e, w, [])
  | Do c k =>
      match handle _ c w with
      | (Ok x, w') =>
          let '(r, w'', trace) := run_app (k x) w' in (r, w'', AppCalled c :: trace)
      | (Raise e, w') => (Raise e, w', [AppCalled c])
      end
  end.
End RunApp.

Module GetResidentsUseCase.
Definition execute : proc (list Resident.t) := Do FindAll Done.
End GetResidentsUseCase.

Module GetResidentUseCase.
Definition execute (resident_id : str) : proc (option Resident.t) :=
  Do (FindById resident_id) Done.
End GetResidentUseCase.

Module TalkToChartController.
Section Controller.
Variable minus_days : datetime -> Z -> result datetime.
(** The look-back of the search use case the controller was built with. *)
Variable lookback_days : Z.

Definition get_residents : proc (list Resident.t) := GetResidentsUseCase.execute.

Definition search_clinical_notes (resident_id query : str) : proc SearchResults.t :=
  and_then
    (embed (SearchClinicalNotesUseCase.execute minus_days lookback_days
              resident_id query))
    (fun results =>
  and_then (GetResidentUseCase.execute resident_id) (fun resident =>
  Done {| SearchResults.query := SearchResults.query results;
          SearchResults.resident := resident;
          SearchResults.results := SearchResults.results results;
          SearchResults.summary := SearchResults.summary results |})).
End Controller.
End TalkToChartController.

(** The calls of the use case among the calls of the application. *)
Definition use_case_handle {W} (handle : forall X, app_call X -> W -> result X * W)
  (X : Type) (c : call X) (w : W) : result X * W :=
  handle X (UseCase c) w.

Definition as_app_event (ev : event) : app_event :=
  match ev with
  | Called c => AppCalled (UseCase c)
  end.

(** The application wired by [create_app]: the use case as in [app_handle],
    the resident repository on the dictionary [_residents]. *)
Definition wired_handle (now : datetime) (_notes : list ClinicalNote.t)
  (_residents : list (str * Resident.t)) (generate_content : str -> result str)
  (X : Type) (c : app_call X) (printed : list str) : result X * list str :=
  match c in app_call X return result X * list str with
  | UseCase c => app_handle now _notes generate_content _ c printed
  | FindById resident_id =>
      (Ok (MockResidentRepository.find_by_id _residents resident_id), printed)
  | FindAll => (Ok (MockResidentRepository.find_all _residents), printed)
  end.

(** More sample data: a reply of one entry, the date two weeks before the
    sample date, and the data of three residents. *)
Definition one_reply : str :=
  entry "Resident fell twice" " NOTE_ID: NOTE_0 RELEVANCE: 9".

Definition sample_since : datetime :=
  {| year := 2025; month := 8; day := 1; hour := 14; minute := 30;
     second := 0; microsecond := 0 |}.

Definition sample_residents : list MockResidentRepository.resident_datum :=
  [ {| MockResidentRepository.data_id := py "RES001";
       MockResidentRepository.data_name := py "Mary Johnson";
       MockResidentRepository.data_room := py "101A";
       MockResidentRepository.data_admission_date := sample_since |};
    {| MockResidentRepository.data_id := py "RES002";
       MockResidentRepository.data_name := py "Robert Williams";
       MockResidentRepository.data_room := py "102B";
       MockResidentRepository.data_admission_date := sample_since |};
    {| MockResidentRepository.data_id := py "RES003";
       MockResidentRepository.data_name := py "Dorothy Smith";
       MockResidentRepository.data_room := py "103A";
       MockResidentRepository.data_admission_date := sample_since |} ].

(* ===================================================================== *)
(** * Part II: properties                                                 *)
(* ===================================================================== *)
(** ** The embedding on small inputs *)

Example split_reply :
  split (py "SNIPPET:") (py "introSNIPPET: aSNIPPET: b")
  = [py "intro"; py " a"; py " b"].
Proof. reflexivity. Qed.

Example split_trailing_separator :
  split (py "SNIPPET:") (py "aSNIPPET:") = [py "a"; []].
Proof. reflexivity. Qed.

Example split_does_not_overlap : split (py "aa") (py "aaaaa") = [[]; []; py "a"].
Proof. reflexivity. Qed.

(** An empty pair of quotes is passed over: the match starts at the second
    quote. *)
Example search_snippet_after_empty_quotes :
  re_search snippet_re ([dquote; dquote] ++ py "x" ++ [dquote]) = Some [py "x"].
Proof. reflexivity. Qed.

Example search_snippet_unclosed :
  re_search snippet_re ([dquote] ++ py "never closed") = None.
Proof. reflexivity. Qed.

Example search_note_id_across_lines :
  re_search note_id_re (py "NOTE_ID:" ++ [newline] ++ py "  NOTE_12a") = Some [py "12"].
Proof. reflexivity. Qed.

Example search_relevance_leftmost :
  re_search relevance_re (py "RELEVANCE: high RELEVANCE:7 RELEVANCE: 8")
  = Some [py "7"].
Proof. reflexivity. Qed.

Example lower_query : lower (py "Any FALLS?") = py "any falls?".
Proof. reflexivity. Qed.

Example nine_tenths : float_div (py_float (py "9")) f_ten = f_0_9.
Proof. vm_compute. reflexivity. Qed.

Example one_as_double : f_one = S754_finite false 4503599627370496 (-52).
Proof. vm_compute. reflexivity. Qed.

(** Two ratings that differ can give the same double. *)
Example ratings_that_tie :
  float_eq (float_div (py_float (py "9007199254740993")) f_ten)
    (float_div (py_float (py "9007199254740992")) f_ten) = true.
Proof. vm_compute. reflexivity. Qed.

Example rating_too_large_for_a_double :
  py_float (repeat "9"%char 400) = S754_infinity false.
Proof. vm_compute. reflexivity. Qed.

Example date_of_sample : strftime_mdY_HM sample_datetime = py "08/15/2025 14:30".
Proof. reflexivity. Qed.

(** The year is not padded. *)
Example date_before_year_1000 :
  strftime_mdY_HM {| year := 999; month := 1; day := 2; hour := 3; minute := 4;
                     second := 0; microsecond := 0 |}
  = py "01/02/999 03:04".
Proof. reflexivity. Qed.

Example two_weeks_before_sample :
  datetime_minus_days sample_datetime 14
  = Ok {| year := 2025; month := 8; day := 1; hour := 14; minute := 30;
          second := 0; microsecond := 0 |}.
Proof. vm_compute. reflexivity. Qed.

(** Equal keys keep their order, greater keys come first. *)
Example sort_is_stable :
  sort_desc snd [(1%nat, f_half); (2%nat, f_0_9); (3%nat, f_half); (4%nat, f_9_9)]
  = [(4%nat, f_9_9); (2%nat, f_0_9); (1%nat, f_half); (3%nat, f_half)].
Proof. vm_compute. reflexivity. Qed.

(** ** Text *)

Lemma starts_with_app (p r : str) : starts_with p (p ++ r) = true.
Proof.
  induction p as [|a p IH]; simpl; [reflexivity|].
  rewrite Ascii.eqb_refl. exact IH.
Qed.

Lemma starts_with_skipn (p s : str) :
  starts_with p s = true -> s = p ++ skipn (length p) s.
Proof.
  revert s. induction p as [|a p IH]; intros s H; simpl in *; [reflexivity|].
  destruct s as [|b s]; [discriminate|].
  apply andb_prop in H as [Hab Hps].
  apply Ascii.eqb_eq in Hab. subst b. f_equal. now apply IH.
Qed.

Lemma starts_with_spec (p s : str) :
  starts_with p s = true <-> exists r, s = p ++ r.
Proof.
  split.
  - intros H. eexists. now apply starts_with_skipn.
  - intros [r ->]. apply starts_with_app.
Qed.

Lemma contains_occurs_in (p s : str) :
  contains p s = true <-> occurs_in p s.
Proof.
  unfold occurs_in. induction s as [|c s IH].
  - simpl. rewrite orb_false_r, starts_with_spec. split.
    + intros [r Hr]. exists [], r. exact Hr.
    + intros (a & b & Hab). destruct a; simpl in Hab.
      * eauto.
      * discriminate.
  - simpl. rewrite orb_true_iff, starts_with_spec, IH. split.
    + intros [[r Hr] | (a & b & Hab)].
      * exists [], r. exact Hr.
      * exists (c :: a), b. simpl. now rewrite Hab.
    + intros (a & b & Hab). destruct a as [|c' a]; simpl in Hab.
      * left. eauto.
      * right. injection Hab as _ Hab. eauto.
Qed.

Lemma take_drop_while (f : ascii -> bool) (s : str) :
  take_while f s ++ drop_while f s = s.
Proof.
  induction s as [|c s IH]; simpl; [reflexivity|].
  destruct (f c); simpl; [now rewrite IH | reflexivity].
Qed.

Lemma take_while_all (f : ascii -> bool) (s : str) : all_of f (take_while f s).
Proof.
  unfold all_of. induction s as [|c s IH]; simpl; [constructor|].
  destruct (f c) eqn:E; constructor; assumption.
Qed.

Lemma drop_while_ends_run (f : ascii -> bool) (s : str) :
  ends_run f (drop_while f s).
Proof.
  induction s as [|c s IH]; simpl; [exact I|].
  destruct (f c) eqn:E; [exact IH | exact E].
Qed.

(** A run followed by a text it cannot extend into is the longest run. *)
Lemma take_while_run (f : ascii -> bool) (w post : str) :
  all_of f w -> ends_run f post -> take_while f (w ++ post) = w.
Proof.
  intros Hw Hp. induction Hw as [|c w Hc _ IH]; simpl.
  - destruct post as [|c post]; simpl in *; [reflexivity | now rewrite Hp].
  - now rewrite Hc, IH.
Qed.

Lemma drop_while_run (f : ascii -> bool) (w post : str) :
  all_of f w -> ends_run f post -> drop_while f (w ++ post) = post.
Proof.
  intros Hw Hp. induction Hw as [|c w Hc _ IH]; simpl.
  - destruct post as [|c post]; simpl in *; [reflexivity | now rewrite Hp].
  - now rewrite Hc, IH.
Qed.

Lemma push_char_join (sep : str) (c : ascii) (ps : list str) :
  ps <> [] -> join sep (push_char c ps) = c :: join sep ps.
Proof.
  destruct ps as [|p [|p' ps]]; simpl; congruence.
Qed.

Lemma split_from_nonempty (sep : str) (k : nat) (s : str) :
  split_from sep k s <> [].
Proof.
  revert k. induction s as [|c s IH]; intros k; simpl; [discriminate|].
  destruct k; [|apply IH].
  destruct (starts_with sep (c :: s)); [discriminate|].
  specialize (IH O). destruct (split_from sep 0 s); simpl; congruence.
Qed.

Lemma join_split_from (sep : str) (k : nat) (s : str) :
  sep <> [] -> join sep (split_from sep k s) = skipn k s.
Proof.
  intros Hsep. revert k. induction s as [|c s IH]; intros k.
  - simpl. now destruct k.
  - simpl. destruct k as [|k]; [|apply IH].
    destruct (starts_with sep (c :: s)) eqn:E.
    + apply starts_with_skipn in E.
      pose proof (split_from_nonempty sep (Nat.pred (length sep)) s) as Hne.
      specialize (IH (Nat.pred (length sep))).
      destruct (split_from sep (Nat.pred (length sep)) s) as [|p ps] eqn:Es;
        [congruence|].
      change (join sep ([] :: p :: ps)) with (sep ++ join sep (p :: ps)).
      rewrite IH. destruct sep as [|a sep]; [congruence|].
      simpl in E |- *. exact (eq_sym E).
    + rewrite push_char_join by apply split_from_nonempty.
      rewrite IH. reflexivity.
Qed.

(** Joining the pieces of a split with the separator gives the text back. *)
Lemma join_split (sep s : str) : sep <> [] -> join sep (split sep s) = s.
Proof. intros H. unfold split. now rewrite join_split_from. Qed.

(** ** The matcher *)

(** When the continuation accepts the longest run, [many] stops there. *)
Lemma many_first {R} (cls : ascii -> bool) (k : str -> str -> option R)
  (s : str) (x : R) :
  k (take_while cls s) (drop_while cls s) = Some x -> many cls k s = Some x.
Proof.
  revert k. induction s as [|c s IH]; intros k H; simpl in *; [exact H|].
  destruct (cls c); [|exact H].
  now rewrite (IH (fun m r => k (c :: m) r) H).
Qed.

(** When the continuation refuses every text that begins in the class,
    giving characters back cannot help: only the longest run counts. *)
Lemma many_commit {R} (cls : ascii -> bool) (k : str -> str -> option R)
  (s : str) :
  (forall m c r, cls c = true -> k m (c :: r) = None) ->
  many cls k s = k (take_while cls s) (drop_while cls s).
Proof.
  revert k. induction s as [|c s IH]; intros k Hk; simpl; [reflexivity|].
  destruct (cls c) eqn:E; [|reflexivity].
  rewrite (IH (fun m r => k (c :: m) r)) by (intros; now apply Hk).
  destruct (k (c :: take_while cls s) (drop_while cls s)); [reflexivity|].
  now apply Hk.
Qed.

Lemma many_nil {R} (cls : ascii -> bool) (k : str -> str -> option R) (s : str) :
  take_while cls s = [] -> many cls k s = k [] s.
Proof.
  destruct s as [|c s]; simpl; [reflexivity|].
  destruct (cls c); [discriminate | reflexivity].
Qed.

Lemma match_lit (l : str) (p : list item) (s : str) :
  match_here (Lit l :: p) (l ++ s) = match_here p s.
Proof.
  simpl. rewrite starts_with_app.
  now rewrite skipn_app, skipn_all, Nat.sub_diag.
Qed.

Lemma match_lit_inv (l : str) (p : list item) (s : str) (g : list str) :
  match_here (Lit l :: p) s = Some g ->
  exists r, s = l ++ r /\ match_here p r = Some g.
Proof.
  simpl. destruct (starts_with l s) eqn:E; [|discriminate].
  intros H. eexists. split; [now apply starts_with_skipn | exact H].
Qed.

Lemma match_star_commit (cls : ascii -> bool) (p : list item) (s : str) :
  (forall c r, cls c = true -> match_here p (c :: r) = None) ->
  match_here (Star cls :: p) s = match_here p (drop_while cls s).
Proof.
  intros H. simpl. now rewrite many_commit by (intros; now apply H).
Qed.

Lemma match_group_commit (cls : ascii -> bool) (p : list item) (s : str) :
  (forall c r, cls c = true -> match_here p (c :: r) = None) ->
  match_here (GroupPlus cls :: p) s =
  match take_while cls s with
  | [] => None
  | (_ :: _) as m => option_map (cons m) (match_here p (drop_while cls s))
  end.
Proof.
  intros H. simpl. rewrite many_commit.
  - now destruct (take_while cls s).
  - intros [|a m] c r Hc; [reflexivity|]. now rewrite H.
Qed.

Lemma match_group_end (cls : ascii -> bool) (s : str) :
  match_here [GroupPlus cls] s =
  match take_while cls s with
  | [] => None
  | (_ :: _) as m => Some [m]
  end.
Proof.
  simpl. destruct (take_while cls s) as [|a m] eqn:E.
  - now rewrite many_nil.
  - apply many_first. now rewrite E.
Qed.

(** [re.search] returns the match at the leftmost position that has one. *)
Lemma re_search_some (p : list item) (s : str) (g : list str) :
  re_search p s = Some g <->
  exists pre t, s = pre ++ t /\ match_here p t = Some g
    /\ forall pre' t', s = pre' ++ t' -> (length pre' < length pre)%nat ->
                       match_here p t' = None.
Proof.
  induction s as [|c s IH]; simpl.
  - split.
    + destruct (match_here p []) eqn:E; [|discriminate].
      intros [= <-]. exists [], []. repeat split; [exact E|].
      simpl. intros; lia.
    + intros (pre & t & Hs & Hm & _).
      symmetry in Hs. apply app_eq_nil in Hs as [-> ->]. now rewrite Hm.
  - destruct (match_here p (c :: s)) as [g0|] eqn:E.
    + split.
      * intros [= <-]. exists [], (c :: s). repeat split; [exact E|].
        simpl. intros; lia.
      * intros (pre & t & Hs & Hm & Hmin).
        destruct pre as [|c' pre]; simpl in Hs.
        -- subst t. congruence.
        -- rewrite (Hmin [] (c :: s) eq_refl) in E; [discriminate | simpl; lia].
    + rewrite IH. split.
      * intros (pre & t & -> & Hm & Hmin).
        exists (c :: pre), t. repeat split; [exact Hm|].
        intros [|c' pre'] t' Hs Hlen; simpl in Hs.
        -- now subst t'.
        -- injection Hs as Hc Hs. apply (Hmin pre' t' Hs). simpl in Hlen. lia.
      * intros (pre & t & Hs & Hm & Hmin).
        destruct pre as [|c' pre]; simpl in Hs.
        -- subst t. congruence.
        -- injection Hs as Hc Hs. subst c' s.
           exists pre, t. repeat split; [exact Hm|].
           intros pre' t' Hs Hlen. apply (Hmin (c :: pre') t').
           ++ simpl. now rewrite Hs.
           ++ simpl. lia.
Qed.

Lemma re_search_none (p : list item) (s : str) :
  re_search p s = None <->
  forall pre t, s = pre ++ t -> match_here p t = None.
Proof.
  induction s as [|c s IH]; simpl.
  - split.
    + destruct (match_here p []) eqn:E; [discriminate|].
      intros _ pre t Hs. symmetry in Hs. apply app_eq_nil in Hs as [-> ->].
      exact E.
    + intros H. now rewrite (H [] [] eq_refl).
  - split.
    + destruct (match_here p (c :: s)) eqn:E; [discriminate|].
      rewrite IH. intros H [|c' pre] t Hs; simpl in Hs.
      * now subst t.
      * injection Hs as Hc Hs. now apply (H pre).
    + intros H. rewrite (H [] (c :: s) eq_refl).
      apply IH. intros pre t Hs. apply (H (c :: pre)). simpl. now rewrite Hs.
Qed.

(** From matches at a position to the leftmost occurrence: when [occ]
    describes the matches of [p] in [f] and [p] has one group. *)
Section Leftmost.
Variables (p : list item) (f : str) (occ : str -> str -> Prop).
Hypothesis occ_match : forall pre x,
    occ pre x <-> exists t, f = pre ++ t /\ match_here p t = Some [x].
Hypothesis one_group : forall t g,
    match_here p t = Some g -> exists x, g = [x].

Lemma search_first (x : str) : re_search p f = Some [x] <-> first_at occ x.
Proof.
  rewrite re_search_some. unfold first_at. split.
  - intros (pre & t & Hf & Hm & Hmin). exists pre. split.
    + apply occ_match. eauto.
    + intros pre' x' Hocc. apply occ_match in Hocc as (t' & Hf' & Hm').
      destruct (Nat.le_gt_cases (length pre) (length pre')) as [|Hlt];
        [assumption|].
      rewrite (Hmin pre' t' Hf' Hlt) in Hm'. discriminate.
  - intros (pre & Hocc & Hmin).
    apply occ_match in Hocc as (t & Hf & Hm).
    exists pre, t. repeat split; [assumption..|].
    intros pre' t' Hf' Hlt.
    destruct (match_here p t') as [g|] eqn:E; [|reflexivity].
    destruct (one_group _ _ E) as [x' ->].
    assert (occ pre' x') as Hocc by (apply occ_match; eauto).
    apply Hmin in Hocc. lia.
Qed.

Lemma search_group (g : list str) :
  re_search p f = Some g -> exists x, g = [x] /\ first_at occ x.
Proof.
  intros H. pose proof H as H'.
  apply re_search_some in H' as (pre & t & _ & Hm & _).
  destruct (one_group _ _ Hm) as [x ->].
  exists x. split; [reflexivity|]. now apply search_first.
Qed.

Lemma search_absent : re_search p f = None <-> ~ exists pre x, occ pre x.
Proof.
  rewrite re_search_none. split.
  - intros H (pre & x & Hocc).
    apply occ_match in Hocc as (t & Hf & Hm).
    rewrite (H pre t Hf) in Hm. discriminate.
  - intros H pre t Hf.
    destruct (match_here p t) as [g|] eqn:E; [|reflexivity].
    destruct (one_group _ _ E) as [x ->].
    exfalso. apply H. exists pre, x. apply occ_match. eauto.
Qed.
End Leftmost.

(** ** The three patterns of the reply protocol *)

Lemma space_not_digit (c : ascii) : is_space c = true -> is_digit c = false.
Proof.
  destruct c as [b0 b1 b2 b3 b4 b5 b6 b7].
  destruct b0, b1, b2, b3, b4, b5, b6, b7; intros H;
    solve [reflexivity | discriminate H].
Qed.

Lemma space_not_N (c : ascii) : is_space c = true -> Ascii.eqb "N" c = false.
Proof.
  intros H. destruct (Ascii.eqb_spec "N" c) as [<-|]; [discriminate H|reflexivity].
Qed.

Lemma not_dquote_ne (c : ascii) : not_dquote c = true -> Ascii.eqb dquote c = false.
Proof.
  unfold not_dquote. rewrite (Ascii.eqb_sym dquote c).
  now destruct (Ascii.eqb c dquote).
Qed.

Lemma all_of_app (cls : ascii -> bool) (a b : str) :
  all_of cls a -> all_of cls b -> all_of cls (a ++ b).
Proof. unfold all_of. intros. apply Forall_app. now split. Qed.

Lemma lit_head_mismatch (a : ascii) (l : str) (p : list item) (c : ascii) (r : str) :
  Ascii.eqb a c = false -> match_here (Lit (a :: l) :: p) (c :: r) = None.
Proof. intros H. cbn [match_here starts_with]. now rewrite H. Qed.

Lemma snippet_one_group (t : str) (g : list str) :
  match_here snippet_re t = Some g -> exists q, g = [q].
Proof.
  unfold snippet_re. intros H.
  apply match_lit_inv in H as (r & _ & H).
  rewrite match_group_commit in H.
  - destruct (take_while not_dquote r) as [|a m]; [discriminate|].
    some_inv H. injection H as <-.
    apply match_lit_inv in E as (_ & _ & [= <-]). eauto.
  - intros c r' Hc. apply lit_head_mismatch. now apply not_dquote_ne.
Qed.

Lemma snippet_occ (f pre q : str) :
  quoted_at f pre q <->
  exists t, f = pre ++ t /\ match_here snippet_re t = Some [q].
Proof.
  assert (Hk : forall c r, not_dquote c = true ->
                 match_here [Lit [dquote]] (c :: r) = None).
  { intros c r' Hc. apply lit_head_mismatch. now apply not_dquote_ne. }
  unfold quoted_at, snippet_re. split.
  - intros (post & -> & Hne & Hq). eexists. split; [reflexivity|].
    change (dquote :: q ++ dquote :: post) with ([dquote] ++ q ++ [dquote] ++ post).
    rewrite match_lit, match_group_commit by exact Hk.
    rewrite take_while_run, drop_while_run by (assumption || reflexivity).
    destruct q; [congruence|]. now rewrite match_lit.
  - intros (t & -> & H).
    apply match_lit_inv in H as (r & -> & H).
    rewrite match_group_commit in H by exact Hk.
    destruct (take_while not_dquote r) as [|a m] eqn:Em; [discriminate|].
    some_inv H. injection H as <- ->.
    apply match_lit_inv in E as (post & Hpost & _).
    exists post. repeat split.
    + rewrite <- Em. change (dquote :: post) with ([dquote] ++ post).
      now rewrite <- Hpost, take_drop_while.
    + discriminate.
    + rewrite <- Em. apply take_while_all.
Qed.

Lemma note_id_one_group (t : str) (g : list str) :
  match_here note_id_re t = Some g -> exists ds, g = [ds].
Proof.
  unfold note_id_re. intros H.
  apply match_lit_inv in H as (r & _ & H).
  rewrite match_star_commit in H.
  - apply match_lit_inv in H as (r' & _ & H).
    rewrite match_group_end in H.
    destruct (take_while is_digit r'); [discriminate|].
    injection H as <-. eauto.
  - intros c r' Hc. apply lit_head_mismatch. now apply space_not_N.
Qed.

Lemma note_id_occ (f pre ds : str) :
  note_id_at f pre ds <->
  exists t, f = pre ++ t /\ match_here note_id_re t = Some [ds].
Proof.
  assert (Hk : forall c r, is_space c = true ->
                 match_here [Lit (py "NOTE_"); GroupPlus is_digit] (c :: r) = None).
  { intros c r' Hc. apply lit_head_mismatch. now apply space_not_N. }
  unfold note_id_at, note_id_re. split.
  - intros (ws & post & -> & Hws & Hne & Hds & Hpost).
    eexists. split; [reflexivity|].
    rewrite match_lit, match_star_commit by exact Hk.
    rewrite drop_while_run by (assumption || reflexivity).
    rewrite match_lit, match_group_end.
    rewrite take_while_run by assumption.
    destruct ds; [congruence | reflexivity].
  - intros (t & -> & H).
    apply match_lit_inv in H as (r & -> & H).
    rewrite match_star_commit in H by exact Hk.
    apply match_lit_inv in H as (r' & Hr' & H).
    rewrite match_group_end in H.
    destruct (take_while is_digit r') as [|a m] eqn:Em; [discriminate|].
    injection H as <-.
    exists (take_while is_space r), (drop_while is_digit r'). repeat split.
    + do 2 f_equal. rewrite <- Em, take_drop_while, <- Hr'.
      symmetry. apply take_drop_while.
    + apply take_while_all.
    + discriminate.
    + rewrite <- Em. apply take_while_all.
    + apply drop_while_ends_run.
Qed.

Lemma relevance_one_group (t : str) (g : list str) :
  match_here relevance_re t = Some g -> exists ds, g = [ds].
Proof.
  unfold relevance_re. intros H.
  apply match_lit_inv in H as (r & _ & H).
  rewrite match_star_commit in H.
  - rewrite match_group_end in H.
    destruct (take_while is_digit (drop_while is_space r)); [discriminate|].
    injection H as <-. eauto.
  - intros c r' Hc. rewrite match_group_end. cbn [take_while].
    now rewrite (space_not_digit c Hc).
Qed.

Lemma relevance_occ (f pre ds : str) :
  relevance_at f pre ds <->
  exists t, f = pre ++ t /\ match_here relevance_re t = Some [ds].
Proof.
  assert (Hk : forall c r, is_space c = true ->
                 match_here [GroupPlus is_digit] (c :: r) = None).
  { intros c r' Hc. rewrite match_group_end. cbn [take_while].
    now rewrite (space_not_digit c Hc). }
  unfold relevance_at, relevance_re. split.
  - intros (ws & post & -> & Hws & Hne & Hds & Hpost).
    eexists. split; [reflexivity|].
    rewrite match_lit, match_star_commit by exact Hk.
    rewrite match_group_end.
    assert (ends_run is_space (ds ++ post)) as Hrun.
    { destruct ds as [|d ds]; [congruence|]. simpl.
      inversion Hds as [|? ? Hd _]; subst.
      destruct (is_space d) eqn:E; [|reflexivity].
      apply space_not_digit in E. congruence. }
    rewrite drop_while_run by assumption.
    rewrite take_while_run by assumption.
    destruct ds; [congruence | reflexivity].
  - intros (t & -> & H).
    apply match_lit_inv in H as (r & -> & H).
    rewrite match_star_commit in H by exact Hk.
    rewrite match_group_end in H.
    destruct (take_while is_digit (drop_while is_space r)) as [|a m] eqn:Em;
      [discriminate|].
    injection H as <-.
    exists (take_while is_space r), (drop_while is_digit (drop_while is_space r)).
    repeat split.
    + do 2 f_equal. rewrite <- Em, take_drop_while.
      symmetry. apply take_drop_while.
    + apply take_while_all.
    + discriminate.
    + rewrite <- Em. apply take_while_all.
    + apply drop_while_ends_run.
Qed.

(** Any occurrence extends to one with all its digits. *)
Lemma has_note_id_at (f : str) :
  has_note_id f <-> exists pre ds, note_id_at f pre ds.
Proof.
  unfold has_note_id, note_id_at. split.
  - intros (pre & ws & ds & post & -> & Hws & Hne & Hds).
    exists pre, (ds ++ take_while is_digit post), ws, (drop_while is_digit post).
    repeat split.
    + now rewrite <- app_assoc, take_drop_while.
    + assumption.
    + destruct ds; [congruence | discriminate].
    + apply all_of_app; [assumption | apply take_while_all].
    + apply drop_while_ends_run.
  - intros (pre & ds & ws & post & ? & ? & ? & ? & _).
    exists pre, ws, ds, post. auto.
Qed.

Lemma has_relevance_at (f : str) :
  has_relevance f <-> exists pre ds, relevance_at f pre ds.
Proof.
  unfold has_relevance, relevance_at. split.
  - intros (pre & ws & ds & post & -> & Hws & Hne & Hds).
    exists pre, (ds ++ take_while is_digit post), ws, (drop_while is_digit post).
    repeat split.
    + now rewrite <- app_assoc, take_drop_while.
    + assumption.
    + destruct ds; [congruence | discriminate].
    + apply all_of_app; [assumption | apply take_while_all].
    + apply drop_while_ends_run.
  - intros (pre & ds & ws & post & ? & ? & ? & ? & _).
    exists pre, ws, ds, post. auto.
Qed.

(** What [re.search] finds for each pattern, in the words of the
    specification. *)
Lemma search_snippet (f : str) (g : list str) :
  re_search snippet_re f = Some g -> exists q, g = [q] /\ first_quoted f q.
Proof. apply search_group; [apply snippet_occ | apply snippet_one_group]. Qed.

Lemma search_snippet_first (f q : str) :
  re_search snippet_re f = Some [q] <-> first_quoted f q.
Proof. apply search_first; [apply snippet_occ | apply snippet_one_group]. Qed.

Lemma search_snippet_none (f : str) :
  re_search snippet_re f = None <-> ~ has_quoted f.
Proof. apply search_absent; [apply snippet_occ | apply snippet_one_group]. Qed.

Lemma search_note_id (f : str) (g : list str) :
  re_search note_id_re f = Some g -> exists ds, g = [ds] /\ first_note_id f ds.
Proof. apply search_group; [apply note_id_occ | apply note_id_one_group]. Qed.

Lemma search_note_id_first (f ds : str) :
  re_search note_id_re f = Some [ds] <-> first_note_id f ds.
Proof. apply search_first; [apply note_id_occ | apply note_id_one_group]. Qed.

Lemma search_note_id_none (f : str) :
  re_search note_id_re f = None <-> ~ has_note_id f.
Proof.
  rewrite has_note_id_at.
  apply search_absent; [apply note_id_occ | apply note_id_one_group].
Qed.

Lemma search_relevance (f : str) (g : list str) :
  re_search relevance_re f = Some g -> exists ds, g = [ds] /\ first_relevance f ds.
Proof. apply search_group; [apply relevance_occ | apply relevance_one_group]. Qed.

Lemma search_relevance_first (f ds : str) :
  re_search relevance_re f = Some [ds] <-> first_relevance f ds.
Proof. apply search_first; [apply relevance_occ | apply relevance_one_group]. Qed.

Lemma search_relevance_none (f : str) :
  re_search relevance_re f = None <-> ~ has_relevance f.
Proof.
  rewrite has_relevance_at.
  apply search_absent; [apply relevance_occ | apply relevance_one_group].
Qed.

(** ** Floats *)

Lemma shr_1_nonneg (mrs : shr_record) : 0 <= shr_m mrs -> 0 <= shr_m (shr_1 mrs).
Proof.
  destruct mrs as [m r s]. simpl.
  destruct m as [|[p|p|]|[p|p|]]; simpl; lia.
Qed.

Lemma iter_shr_1_nonneg (n : positive) (mrs : shr_record) :
  0 <= shr_m mrs -> 0 <= shr_m (SpecFloat.iter_pos shr_1 n mrs).
Proof.
  revert mrs. induction n as [n IH|n IH|]; intros mrs H; simpl.
  - apply IH, IH. now apply shr_1_nonneg.
  - now apply IH, IH.
  - now apply shr_1_nonneg.
Qed.

Lemma shr_record_of_loc_m (m : Z) (l : location) : shr_m (shr_record_of_loc m l) = m.
Proof. now destruct l as [|[]]. Qed.

Lemma shr_fexp_nonneg (m e : Z) (l : location) :
  0 <= m -> 0 <= shr_m (fst (shr_fexp 53 1024 m e l)).
Proof.
  intros H. unfold shr_fexp, shr.
  destruct (fexp 53 1024 (Zdigits2 m + e) - e) as [|n|n]; simpl;
    rewrite ?shr_record_of_loc_m; try assumption.
  apply iter_shr_1_nonneg. now rewrite shr_record_of_loc_m.
Qed.

Lemma round_nearest_even_nonneg (m : Z) (l : location) :
  0 <= m -> 0 <= round_nearest_even m l.
Proof.
  intros H. destruct l as [|[]]; simpl; try assumption.
  - destruct (Z.even m); lia.
  - lia.
Qed.

(** Rounding a non-negative mantissa gives zero, a positive number or
    plus infinity: [0 <= x] holds, and [x] is not a NaN. *)
Lemma binary_round_aux_nonneg (mx ex : Z) (lx : location) :
  0 <= mx -> float_le f_zero (binary_round_aux 53 1024 false mx ex lx) = true.
Proof.
  intros H. unfold binary_round_aux.
  pose proof (shr_fexp_nonneg mx ex lx H) as H1.
  destruct (shr_fexp 53 1024 mx ex lx) as [mrs' e']. simpl in H1.
  pose proof (shr_fexp_nonneg _ e' loc_Exact
                (round_nearest_even_nonneg _ (loc_of_shr_record mrs') H1)) as H2.
  destruct (shr_fexp 53 1024 _ e' loc_Exact) as [mrs'' e'']. simpl in H2.
  destruct (shr_m mrs'') as [|m|m]; [reflexivity| |lia].
  now destruct (e'' <=? 1024 - 53).
Qed.

Lemma float_of_Z_nonneg (z : Z) : 0 <= z -> float_le f_zero (float_of_Z z) = true.
Proof.
  intros H. unfold float_of_Z, binary_normalize.
  destruct z as [|m|m]; [reflexivity| |lia].
  unfold binary_round. destruct (shl_align _ _ _) as [mz ez].
  now apply binary_round_aux_nonneg.
Qed.

Lemma f_ten_eq : f_ten = S754_finite false 5629499534213120 (-49).
Proof. reflexivity. Qed.

Lemma float_div_ten_nonneg (x : float) :
  float_le f_zero x = true -> float_le f_zero (float_div x f_ten) = true.
Proof.
  rewrite f_ten_eq. unfold float_div.
  destruct x as [s|[]| |[] m e]; try discriminate; intros _; try reflexivity.
  unfold SFdiv. cbn [xorb].
  destruct (SFdiv_core_binary 53 1024 (Z.pos m) e _ _) as [[mz ez] lz] eqn:E.
  apply binary_round_aux_nonneg.
  unfold SFdiv_core_binary in E.
  set (m' := match _ with Z.pos _ => _ | _ => _ end) in E.
  assert (0 <= m') as Hm'.
  { subst m'. destruct (_ - _ - _)%Z; try lia. apply Z.shiftl_nonneg. lia. }
  pose proof (Z.div_pos m' 5629499534213120 Hm' eq_refl) as Hq.
  unfold Z.div in Hq.
  destruct (Z.div_eucl m' 5629499534213120) as [q r].
  now injection E as <- _ _.
Qed.

Lemma digits_value_from (ds : str) (acc : Z) :
  all_of is_digit ds -> 0 <= acc ->
  0 <= fold_left (fun a c => 10 * a + digit_value c) ds acc.
Proof.
  intros H. revert acc. induction H as [|c ds Hc _ IH]; intros acc Hacc; simpl.
  - assumption.
  - apply IH. unfold is_digit in Hc. unfold digit_value.
    apply andb_prop in Hc as [Hlo _]. apply N.leb_le in Hlo. lia.
Qed.

Lemma digits_value_nonneg (ds : str) : all_of is_digit ds -> 0 <= digits_value ds.
Proof. intros H. now apply digits_value_from. Qed.

(** The score of a fragment is never negative and never a NaN. *)
Lemma score_nonneg (ds : str) :
  all_of is_digit ds -> float_le f_zero (float_div (py_float ds) f_ten) = true.
Proof.
  intros H. apply float_div_ten_nonneg, float_of_Z_nonneg.
  now apply digits_value_nonneg.
Qed.

(** Ratings up to 10 give scores up to 1. *)
Lemma score_le_one (ds : str) :
  all_of is_digit ds -> digits_value ds <= 10 ->
  float_le (float_div (py_float ds) f_ten) f_one = true.
Proof.
  intros H Hle. pose proof (digits_value_nonneg ds H) as H0.
  unfold py_float.
  assert (In (digits_value ds) [0; 1; 2; 3; 4; 5; 6; 7; 8; 9; 10]) as Hin.
  { simpl. lia. }
  revert Hin. generalize (digits_value ds). intros z Hin.
  simpl in Hin.
  repeat (destruct Hin as [<-|Hin]; [vm_compute; reflexivity|]).
  destruct Hin.
Qed.

Lemma float_lt_le (x y : float) : float_lt x y = true -> float_le x y = true.
Proof.
  unfold float_lt, float_le, SFltb, SFleb.
  now destruct (SFcompare x y) as [[]|].
Qed.

Lemma SFcompare_antisym (x y : float) :
  SFcompare y x = option_map CompOpp (SFcompare x y).
Proof.
  destruct x as [sx|sx| |sx mx ex], y as [sy|sy| |sy my ey]; simpl;
    try reflexivity;
    try (destruct sx; reflexivity); try (destruct sy; reflexivity);
    try (destruct sx, sy; reflexivity).
  rewrite (Z.compare_antisym ey ex).
  destruct sx, sy; simpl; try reflexivity;
    destruct (ey ?= ex); simpl; try reflexivity;
    rewrite (Pos.compare_cont_antisym mx my Eq); simpl;
    now rewrite ?CompOpp_involutive.
Qed.

(** On numbers, [<] and [>=] are complementary. *)
Lemma SFcompare_numbers (x y : float) :
  float_le f_zero x = true -> float_le f_zero y = true ->
  exists c, SFcompare x y = Some c.
Proof.
  intros Hx Hy.
  destruct x as [sx|sx| |sx mx ex]; try discriminate Hx;
    destruct y as [sy|sy| |sy my ey]; try discriminate Hy; simpl; eauto.
Qed.

Lemma float_not_lt (x y : float) :
  float_le f_zero x = true -> float_le f_zero y = true ->
  float_lt x y = false -> float_le y x = true.
Proof.
  intros Hx Hy. destruct (SFcompare_numbers x y Hx Hy) as [c Hc].
  unfold float_lt, float_le, SFltb, SFleb.
  rewrite (SFcompare_antisym x y), Hc.
  now destruct c.
Qed.

Lemma SFcompare_refl_lt (x : float) : float_lt x x = false.
Proof.
  unfold float_lt, SFltb.
  destruct x as [s|[]| |[] m e]; simpl; try reflexivity;
    rewrite Z.compare_refl, Pos.compare_cont_refl; reflexivity.
Qed.

Lemma float_eq_shape (x v : float) :
  float_eq x v = true ->
  x = v \/ exists s s', x = S754_zero s /\ v = S754_zero s'.
Proof.
  unfold float_eq, SFeqb.
  destruct x as [sx|sx| |sx mx ex], v as [sv|sv| |sv mv ev]; simpl;
    try discriminate; try (destruct sx; discriminate);
    try (destruct sv; discriminate).
  - eauto.
  - destruct sx, sv; try discriminate; auto.
  - destruct sx, sv; try discriminate;
      destruct (ex ?= ev) eqn:Ee; try discriminate;
      apply Z.compare_eq in Ee; subst ev;
      destruct (Pos.compare_cont Eq mx mv) eqn:Em; try discriminate;
      apply Pos.compare_eq in Em; subst mv; auto.
Qed.

(** Two keys that equal a third are not in the relation [<]. *)
Lemma float_eq_not_lt (x y v : float) :
  float_eq x v = true -> float_eq y v = true -> float_lt x y = false.
Proof.
  intros Hx Hy.
  destruct (float_eq_shape _ _ Hx) as [->|(s1 & s2 & -> & ->)].
  - destruct (float_eq_shape _ _ Hy) as [->|(s1 & s2 & -> & ->)].
    + apply SFcompare_refl_lt.
    + reflexivity.
  - destruct (float_eq_shape _ _ Hy) as [->|(s3 & s4 & -> & _)]; reflexivity.
Qed.

(** ** Sorting *)

Section SortFacts.
Context {A : Type} (key : A -> float).

Lemma insert_desc_perm (x : A) (l : list A) :
  Permutation (insert_desc key x l) (x :: l).
Proof.
  induction l as [|y l IH]; simpl; [reflexivity|].
  destruct (float_lt (key x) (key y)); [|reflexivity].
  rewrite IH. apply perm_swap.
Qed.

Lemma sort_desc_perm (l : list A) : Permutation (sort_desc key l) l.
Proof.
  induction l as [|x l IH]; simpl; [reflexivity|].
  rewrite insert_desc_perm. now constructor.
Qed.

Lemma length_sort_desc (l : list A) : length (sort_desc key l) = length l.
Proof. apply Permutation_length, sort_desc_perm. Qed.

Lemma insert_desc_hd (a x : A) (l : list A) :
  ge_key key a x -> HdRel (ge_key key) a l -> HdRel (ge_key key) a (insert_desc key x l).
Proof.
  intros Hax Hl. destruct l as [|y l]; simpl.
  - now constructor.
  - destruct (float_lt (key x) (key y)); constructor; [|assumption].
    now inversion Hl.
Qed.

Lemma insert_desc_sorted (x : A) (l : list A) :
  number_key key x -> Forall (number_key key) l ->
  Sorted (ge_key key) l -> Sorted (ge_key key) (insert_desc key x l).
Proof.
  intros Hx Hl Hs. induction Hs as [|y l Hs IH Hhd]; simpl.
  - repeat constructor.
  - inversion Hl as [|? ? Hy Hl']; subst.
    destruct (float_lt (key x) (key y)) eqn:E.
    + constructor; [now apply IH|].
      apply insert_desc_hd; [|assumption].
      now apply float_lt_le.
    + constructor; [now constructor|].
      constructor. now apply float_not_lt.
Qed.

Lemma sort_desc_sorted (l : list A) :
  Forall (number_key key) l -> Sorted (ge_key key) (sort_desc key l).
Proof.
  induction 1 as [|x l Hx Hl IH]; simpl; [constructor|].
  apply insert_desc_sorted; [assumption| |assumption].
  now rewrite sort_desc_perm.
Qed.

Lemma sorted_descending (l : list A) : Sorted (ge_key key) l -> descending key l.
Proof.
  unfold descending. induction 1 as [|x l Hs IH Hhd]; intros i a b Ha Hb.
  - now destruct i.
  - destruct i as [|i]; simpl in Ha, Hb.
    + injection Ha as <-. destruct l as [|y l]; [discriminate|].
      injection Hb as <-. now inversion Hhd.
    + now apply (IH i).
Qed.

(** Insertion never moves an element past one with an equal key. *)
Lemma insert_desc_with_key (v : float) (x : A) (l : list A) :
  with_key key v (insert_desc key x l) = with_key key v (x :: l).
Proof.
  unfold with_key. induction l as [|y l IH]; simpl; [reflexivity|].
  destruct (float_lt (key x) (key y)) eqn:E; [|reflexivity].
  simpl. rewrite IH. simpl.
  destruct (float_eq (key x) v) eqn:Ex, (float_eq (key y) v) eqn:Ey;
    try reflexivity.
  rewrite (float_eq_not_lt _ _ _ Ex Ey) in E. discriminate.
Qed.

Lemma sort_desc_with_key (v : float) (l : list A) :
  with_key key v (sort_desc key l) = with_key key v l.
Proof.
  induction l as [|x l IH]; simpl; [reflexivity|].
  rewrite insert_desc_with_key. unfold with_key in *. simpl. now rewrite IH.
Qed.
End SortFacts.

(** ** The parser *)

Import GeminiQueryProcessor.

Lemma first_at_occ (occ : str -> str -> Prop) (x : str) :
  first_at occ x -> exists pre, occ pre x.
Proof. intros (pre & H & _). eauto. Qed.

Lemma first_relevance_has (f ds : str) : first_relevance f ds -> has_relevance f.
Proof.
  intros H. apply has_relevance_at.
  destruct (first_at_occ _ _ H) as [pre Hpre]. eauto.
Qed.


Lemma first_relevance_digits (f ds : str) :
  first_relevance f ds -> all_of is_digit ds.
Proof. intros (pre & (ws & post & _ & _ & _ & H & _) & _). exact H. Qed.

Lemma first_quoted_nonempty (f q : str) :
  first_quoted f q -> q <> [] /\ all_of not_dquote q /\ occurs_in q f.
Proof.
  intros (pre & (post & -> & Hne & Hq) & _). repeat split; try assumption.
  exists (pre ++ [dquote]), (dquote :: post). now rewrite <- app_assoc.
Qed.

Lemma relevance_of_first (f ds : str) :
  first_relevance f ds -> relevance_of f = float_div (py_float ds) f_ten.
Proof.
  intros H. apply search_relevance_first in H. unfold relevance_of. now rewrite H.
Qed.

Lemma relevance_of_absent (f : str) : ~ has_relevance f -> relevance_of f = f_half.
Proof.
  intros H. apply search_relevance_none in H. unfold relevance_of. now rewrite H.
Qed.

Lemma relevance_of_number (f : str) : float_le f_zero (relevance_of f) = true.
Proof.
  unfold relevance_of. destruct (re_search relevance_re f) as [g|] eqn:E;
    [|reflexivity].
  apply search_relevance in E as (ds & -> & Hds).
  apply score_nonneg. now apply first_relevance_digits with f.
Qed.

(** The loop body, case by case. *)
Lemma parse_section_eq (notes : list ClinicalNote.t) (f : str) :
  parse_section notes f =
  match re_search snippet_re f with
  | None => Ok None
  | Some [] => Raise (IndexError (py "no such group"))
  | Some (q :: _) =>
      match re_search note_id_re f with
      | None => Ok None
      | Some [] => Raise (IndexError (py "no such group"))
      | Some (ds :: _) =>
          match py_int ds with
          | Raise e => Raise e
          | Ok i =>
              if Z.of_nat (length notes) <=? i then Ok None
              else match nth_error notes (Z.to_nat i) with
                   | Some note =>
                       Ok (Some {| QueryResult.snippet := q;
                                   QueryResult.source_note := note;
                                   QueryResult.relevance_score := relevance_of f |})
                   | None => Raise (IndexError (py "list index out of range"))
                   end
          end
      end
  end.
Proof.
  unfold parse_section, relevance_of, getitem, mbind, result_bind, group1.
  destruct (re_search snippet_re f) as [[|q g]|]; try reflexivity.
  destruct (re_search note_id_re f) as [[|ds g']|]; try reflexivity.
  destruct (py_int ds) as [i|e]; try reflexivity.
  destruct (re_search relevance_re f) as [[|rd g'']|] eqn:E.
  - apply search_relevance in E as (? & [=] & _).
  - destruct (_ <=? _); [reflexivity|]. now destruct (nth_error _ _).
  - destruct (_ <=? _); [reflexivity|]. now destruct (nth_error _ _).
Qed.

Lemma parse_section_caught (notes : list ClinicalNote.t) (f : str) (e : exn) :
  parse_section notes f = Raise e -> caught e = true.
Proof.
  rewrite parse_section_eq. unfold py_int.
  destruct (re_search snippet_re f) as [[|q g]|]; try (intros [= <-]; reflexivity).
  destruct (re_search note_id_re f) as [[|ds g']|]; try (intros [= <-]; reflexivity).
  destruct (int_max_str_digits <? length ds)%nat; [intros [= <-]; reflexivity|].
  destruct (_ <=? _); [discriminate|].
  destruct (nth_error _ _); intros [= <-]; reflexivity.
Qed.

Lemma parse_sections_eq (notes : list ClinicalNote.t) (secs : list str) :
  parse_sections notes secs = Ok (omap (contribution notes) secs).
Proof.
  induction secs as [|f secs IH]; simpl; [reflexivity|].
  unfold contribution at 1.
  destruct (parse_section notes f) as [[r|]|e] eqn:E.
  - rewrite IH. reflexivity.
  - exact IH.
  - now rewrite (parse_section_caught _ _ _ E).
Qed.

Lemma parse_response_eq (reply : str) (notes : list ClinicalNote.t) :
  _parse_search_response reply notes =
  Ok (sort_desc QueryResult.relevance_score
        (omap (contribution notes) (sections_of reply))).
Proof. unfold _parse_search_response. now rewrite parse_sections_eq. Qed.

(** What a fragment that contributes a result looks like. *)
Lemma contribution_some (notes : list ClinicalNote.t) (f : str) (r : QueryResult.t) :
  contribution notes f = Some r ->
  exists q ds,
    first_quoted f q /\ first_note_id f ds
    /\ (length ds <= int_max_str_digits)%nat
    /\ digits_value ds < Z.of_nat (length notes)
    /\ nth_error notes (Z.to_nat (digits_value ds)) = Some (QueryResult.source_note r)
    /\ QueryResult.snippet r = q
    /\ QueryResult.relevance_score r = relevance_of f.
Proof.
  unfold contribution. rewrite parse_section_eq.
  destruct (re_search snippet_re f) as [g|] eqn:Es; [|discriminate].
  apply search_snippet in Es as (q & -> & Hq).
  destruct (re_search note_id_re f) as [g|] eqn:En; [|discriminate].
  apply search_note_id in En as (ds & -> & Hds).
  unfold py_int. destruct (int_max_str_digits <? length ds)%nat eqn:El;
    [discriminate|].
  destruct (Z.of_nat (length notes) <=? digits_value ds) eqn:Ei; [discriminate|].
  destruct (nth_error notes (Z.to_nat (digits_value ds))) as [note|] eqn:Eg;
    [|discriminate].
  intros [= <-]. exists q, ds. simpl.
  apply Nat.ltb_ge in El. apply Z.leb_gt in Ei. auto 10.
Qed.

(** A malformed fragment contributes nothing. *)
Lemma contribution_malformed (notes : list ClinicalNote.t) (f : str) :
  malformed notes f -> contribution notes f = None.
Proof.
  unfold contribution. rewrite parse_section_eq.
  intros [H | [H | (ds & Hds & Hrange)]].
  - apply search_snippet_none in H. now rewrite H.
  - apply search_note_id_none in H. rewrite H.
    now destruct (re_search snippet_re f) as [[|q g]|].
  - apply search_note_id_first in Hds. rewrite Hds.
    destruct (re_search snippet_re f) as [[|q g]|]; try reflexivity.
    unfold py_int. destruct (int_max_str_digits <? length ds)%nat; [reflexivity|].
    apply Z.leb_le in Hrange. now rewrite Hrange.
Qed.

Lemma contributions_numbers (notes : list ClinicalNote.t) (secs : list str) :
  Forall (number_key QueryResult.relevance_score) (omap (contribution notes) secs).
Proof.
  induction secs as [|f secs IH]; simpl; [constructor|].
  destruct (contribution notes f) as [r|] eqn:E; [|exact IH].
  constructor; [|exact IH].
  apply contribution_some in E as (q & ds & _ & _ & _ & _ & _ & _ & Hs).
  unfold number_key. rewrite Hs. apply relevance_of_number.
Qed.

Lemma in_contributions (notes : list ClinicalNote.t) (secs : list str)
  (r : QueryResult.t) :
  In r (omap (contribution notes) secs) <->
  exists f, In f secs /\ contribution notes f = Some r.
Proof.
  rewrite <- list_elem_of_In, list_elem_of_omap.
  split; intros (f & Hf & E); exists f; split; try assumption;
    now apply list_elem_of_In.
Qed.

Lemma occurs_in_join (sep piece : str) (pieces : list str) :
  In piece pieces -> occurs_in piece (join sep pieces).
Proof.
  unfold occurs_in. induction pieces as [|p ps IH]; intros Hin; [destruct Hin|].
  destruct Hin as [->|Hin].
  - destruct ps as [|p' ps].
    + exists [], []. simpl. now rewrite app_nil_r.
    + exists [], (sep ++ join sep (p' :: ps)). reflexivity.
  - destruct (IH Hin) as (a & b & Hab).
    destruct ps as [|p' ps]; [destruct Hin|].
    exists (p ++ sep ++ a), b.
    change (join sep (p :: p' :: ps)) with (p ++ sep ++ join sep (p' :: ps)).
    rewrite Hab. now rewrite <- !app_assoc.
Qed.

Lemma occurs_in_trans (a b c : str) :
  occurs_in a b -> occurs_in b c -> occurs_in a c.
Proof.
  intros (x & y & ->) (u & v & ->). exists (u ++ x), (y ++ v).
  now rewrite <- !app_assoc.
Qed.

(** Every fragment is a piece of the reply. *)
Lemma section_occurs_in (reply f : str) :
  In f (sections_of reply) -> occurs_in f reply.
Proof.
  intros Hin. unfold sections_of in Hin.
  rewrite <- (join_split (py "SNIPPET:") reply) by discriminate.
  apply occurs_in_join.
  destruct (split (py "SNIPPET:") reply); simpl in Hin; [destruct Hin | now right].
Qed.

(** ** The codec boundary *)

(** C1: [process_query] never raises: for every query, every list of notes
    and every behaviour of the generation service it returns a list; and
    whenever the call to the service raises, the list is empty (the error
    is printed, not propagated). *)
Theorem process_query_never_raises (generate_content : str -> result str)
  (query : str) (clinical_notes : list ClinicalNote.t) :
  (exists results,
      fst (process_query generate_content query clinical_notes) = Ok results)
  /\ (forall e,
         generate_content
           (_create_search_prompt query (_prepare_context clinical_notes))
         = Raise e ->
         process_query generate_content query clinical_notes
         = (Ok [], [py "Error processing query with Gemini: " ++ exn_str e])).
Proof.
  unfold process_query. split.
  - destruct (generate_content _) as [text|e]; simpl.
    + rewrite parse_response_eq. eauto.
    + eauto.
  - intros e ->. reflexivity.
Qed.

Lemma process_query_never_raises_witness :
  process_query (fun _ => Raise (OtherException (py "quota exceeded")))
    (py "any falls?") [fell_note]
  = (Ok [], [py "Error processing query with Gemini: quota exceeded"]).
Proof.
  apply (proj2 (process_query_never_raises
                  (fun _ => Raise (OtherException (py "quota exceeded")))
                  (py "any falls?") [fell_note])
           (OtherException (py "quota exceeded"))).
  reflexivity.
Defined.

(** ** Parsing the reply *)

(** C2: a fragment that lacks a double-quoted text, lacks a
    [NOTE_ID: NOTE_<digits>] occurrence or names a note index out of range
    contributes no result, raises no error, and the results are those of
    the other fragments. *)
Theorem malformed_fragment_skipped (reply : str)
  (clinical_notes : list ClinicalNote.t) (before after : list str) (f : str) :
  sections_of reply = before ++ f :: after ->
  malformed clinical_notes f ->
  parse_sections clinical_notes [f] = Ok []
  /\ exists others,
      parse_sections clinical_notes (before ++ after) = Ok others
      /\ parse_sections clinical_notes (sections_of reply) = Ok others
      /\ _parse_search_response reply clinical_notes
         = Ok (sort_desc QueryResult.relevance_score others).
Proof.
  intros Hsec Hbad. pose proof (contribution_malformed _ _ Hbad) as Hnone.
  split.
  - rewrite parse_sections_eq. simpl. now rewrite Hnone.
  - exists (omap (contribution clinical_notes) (before ++ after)).
    rewrite parse_response_eq, !parse_sections_eq, Hsec.
    rewrite !omap_app. simpl. rewrite Hnone. auto.
Qed.

Lemma malformed_fragment_skipped_witness :
  _parse_search_response reply_with_bad_index two_notes
  = Ok (sort_desc QueryResult.relevance_score
          [sample_result "fell twice" fell_note f_0_9;
           sample_result "two-person assist" assist_note
             (float_div (float_of_Z 7) f_ten)]).
Proof.
  destruct (malformed_fragment_skipped reply_with_bad_index two_notes
              [fragment "fell twice" " NOTE_ID: NOTE_0 RELEVANCE: 9 "]
              [fragment "two-person assist" " NOTE_ID: NOTE_1 RELEVANCE: 7"]
              (fragment "not there" " NOTE_ID: NOTE_5 RELEVANCE: 10 "))
    as (_ & others & Hothers & _ & Hparse).
  - vm_compute. reflexivity.
  - right. right. exists (py "5"). split.
    + apply search_note_id_first. vm_compute. reflexivity.
    + vm_compute. discriminate.
  - rewrite Hparse. vm_compute in Hothers. injection Hothers as <-.
    vm_compute. reflexivity.
Defined.

(** C3: the parsed results are in descending order of relevance, position
    by position, and results of equal relevance stand in the order of
    their fragments in the reply.  The fragments of the reply, in the
    order of the reply, are [sections_of reply]; mapping each fragment
    that yields a result to that result gives the results in the order of
    their fragments, and the parsed results are these, rearranged, with
    the results of every one relevance in that same order. *)
Theorem parsed_results_sorted_stable (reply : str)
  (clinical_notes : list ClinicalNote.t) :
  exists results,
    _parse_search_response reply clinical_notes = Ok results
    /\ Permutation results
         (omap (contribution clinical_notes) (sections_of reply))
    /\ descending QueryResult.relevance_score results
    /\ forall v, with_key QueryResult.relevance_score v results
                 = with_key QueryResult.relevance_score v
                     (omap (contribution clinical_notes) (sections_of reply)).
Proof.
  eexists. rewrite parse_response_eq.
  split; [reflexivity|]. split; [|split].
  - apply sort_desc_perm.
  - apply sorted_descending, sort_desc_sorted, contributions_numbers.
  - intros v. apply sort_desc_with_key.
Qed.

Lemma parsed_results_sorted_stable_witness :
  exists results,
    _parse_search_response tied_reply two_notes = Ok results
    /\ with_key QueryResult.relevance_score f_0_9 results
       = [ sample_result "Resident fell twice" fell_note f_0_9;
           sample_result "two-person assist" assist_note f_0_9 ]
    /\ with_key QueryResult.relevance_score f_half results
       = [ sample_result "steady gait" fell_note f_half ].
Proof.
  destruct (parsed_results_sorted_stable tied_reply two_notes)
    as (results & Hparse & _ & _ & Hties).
  exists results. split; [exact Hparse|].
  rewrite !Hties. split; vm_compute; reflexivity.
Defined.



(** The scenario of the specification: one entry rated 9 against one note. *)
Example scenario_fell_twice :
  _parse_search_response
    (entry "resident fell twice" " NOTE_ID: NOTE_0 RELEVANCE: 9") [fell_note]
  = Ok [sample_result "resident fell twice" fell_note f_0_9].
Proof. vm_compute. reflexivity. Qed.

(** C5, as the specification states it, fails: the parser does not clamp
    the rating, and a reply that rates a snippet 99 yields the score 9.9. *)
Lemma relevance_score_above_one :
  ~ (forall reply clinical_notes results r,
        _parse_search_response reply clinical_notes = Ok results ->
        In r results ->
        float_le f_zero (QueryResult.relevance_score r) = true
        /\ float_le (QueryResult.relevance_score r) f_one = true).
Proof.
  intros H.
  destruct (H (entry "fell twice" " NOTE_ID: NOTE_0 RELEVANCE: 99") [fell_note]
              [sample_result "fell twice" fell_note f_9_9]
              (sample_result "fell twice" fell_note f_9_9)) as [_ Hle].
  - vm_compute. reflexivity.
  - now left.
  - vm_compute in Hle. discriminate Hle.
Qed.

(** C5, amended: every parsed result has a relevance that is a number not
    below 0; it is at most 1 when the first [RELEVANCE:] digits of its
    fragment denote at most 10, and when the fragment has no such
    occurrence. *)
Theorem relevance_score_bounds (reply : str) (clinical_notes : list ClinicalNote.t) :
  exists results,
    _parse_search_response reply clinical_notes = Ok results
    /\ forall r, In r results ->
         float_le f_zero (QueryResult.relevance_score r) = true
         /\ exists f,
             In f (sections_of reply)
             /\ parse_section clinical_notes f = Ok (Some r)
             /\ (forall ds, first_relevance f ds -> digits_value ds <= 10 ->
                   float_le (QueryResult.relevance_score r) f_one = true)
             /\ (~ has_relevance f ->
                   float_le (QueryResult.relevance_score r) f_one = true).
Proof.
  eexists. split; [apply parse_response_eq|].
  intros r Hr.
  apply (Permutation_in _ (sort_desc_perm _ _)) in Hr.
  apply in_contributions in Hr as (f & Hf & Hc).
  pose proof Hc as Hc'.
  apply contribution_some in Hc' as (q & ds & _ & _ & _ & _ & _ & _ & Hs).
  rewrite Hs. split; [apply relevance_of_number|].
  exists f. repeat split.
  - assumption.
  - unfold contribution in Hc.
    now destruct (parse_section clinical_notes f) as [[r'|]|]; inversion Hc.
  - intros rd Hrd Hle. rewrite (relevance_of_first _ _ Hrd).
    apply score_le_one; [|assumption]. now apply first_relevance_digits with f.
  - intros Hno. now rewrite (relevance_of_absent _ Hno).
Qed.

Lemma relevance_score_bounds_witness :
  float_le f_zero f_0_9 = true /\ float_le f_0_9 f_one = true.
Proof.
  destruct (relevance_score_bounds
              (entry "resident fell twice" " NOTE_ID: NOTE_0 RELEVANCE: 9")
              [fell_note]) as (results & Hparse & Hall).
  vm_compute in Hparse. injection Hparse as <-.
  destruct (Hall (sample_result "resident fell twice" fell_note f_0_9)
              (or_introl eq_refl)) as (Hge & f & Hf & _ & Hle & _).
  split; [exact Hge|].
  vm_compute in Hf. destruct Hf as [<-|[]].
  apply (Hle (py "9")).
  - apply search_relevance_first. vm_compute. reflexivity.
  - vm_compute. discriminate.
Defined.

(** C6, as the specification states it, fails: the parser takes the quoted
    text from the reply and never compares it with the note. *)
Lemma snippet_not_from_note :
  ~ (forall reply clinical_notes results r,
        _parse_search_response reply clinical_notes = Ok results ->
        In r results ->
        QueryResult.snippet r <> []
        /\ occurs_in (QueryResult.snippet r)
             (ClinicalNote.content (QueryResult.source_note r))).
Proof.
  intros H.
  destruct (H (entry "wandering at night" " NOTE_ID: NOTE_0 RELEVANCE: 8")
              [fell_note]
              [sample_result "wandering at night" fell_note
                 (float_div (float_of_Z 8) f_ten)]
              (sample_result "wandering at night" fell_note
                 (float_div (float_of_Z 8) f_ten))) as [_ Hocc].
  - vm_compute. reflexivity.
  - now left.
  - apply contains_occurs_in in Hocc. vm_compute in Hocc. discriminate Hocc.
Qed.

(** C6, amended: every parsed result has a non-empty snippet free of double
    quotes, which is the first double-quoted text of its fragment and so a
    part of the reply; its source note is the note at the index the
    fragment names first. *)
Theorem snippet_quoted_in_reply (reply : str) (clinical_notes : list ClinicalNote.t) :
  exists results,
    _parse_search_response reply clinical_notes = Ok results
    /\ forall r, In r results ->
         QueryResult.snippet r <> []
         /\ all_of not_dquote (QueryResult.snippet r)
         /\ occurs_in (QueryResult.snippet r) reply
         /\ exists f ds,
             In f (sections_of reply)
             /\ first_quoted f (QueryResult.snippet r)
             /\ first_note_id f ds
             /\ nth_error clinical_notes (Z.to_nat (digits_value ds))
                = Some (QueryResult.source_note r).
Proof.
  eexists. split; [apply parse_response_eq|].
  intros r Hr.
  apply (Permutation_in _ (sort_desc_perm _ _)) in Hr.
  apply in_contributions in Hr as (f & Hf & Hc).
  apply contribution_some in Hc as (q & ds & Hq & Hds & _ & _ & Hnote & Hsn & _).
  rewrite Hsn.
  destruct (first_quoted_nonempty _ _ Hq) as (Hne & Hall & Hocc).
  repeat split; try assumption.
  - apply occurs_in_trans with f; [assumption | now apply section_occurs_in].
  - exists f, ds. auto.
Qed.

Lemma snippet_quoted_in_reply_witness :
  occurs_in (py "resident fell twice")
    (entry "resident fell twice" " NOTE_ID: NOTE_0 RELEVANCE: 9").
Proof.
  destruct (snippet_quoted_in_reply
              (entry "resident fell twice" " NOTE_ID: NOTE_0 RELEVANCE: 9")
              [fell_note]) as (results & Hparse & Hall).
  vm_compute in Hparse. injection Hparse as <-.
  destruct (Hall (sample_result "resident fell twice" fell_note f_0_9)
              (or_introl eq_refl)) as (_ & _ & Hocc & _).
  exact Hocc.
Defined.

(** C10: the parser has no cap.  The prompt asks for up to 5 snippets, the
    number of results is the number of fragments that contribute, and a
    reply with six well-formed entries yields six results. *)
Theorem parser_has_no_cap :
  (forall query context,
      occurs_in (py "5. Return up to 5 most relevant snippets")
        (_create_search_prompt query context))
  /\ (forall reply clinical_notes, exists results,
         _parse_search_response reply clinical_notes = Ok results
         /\ length results
            = length (omap (contribution clinical_notes) (sections_of reply)))
  /\ exists reply clinical_notes results,
      Forall (fun f => ~ malformed clinical_notes f) (sections_of reply)
      /\ (5 < length (sections_of reply))%nat
      /\ _parse_search_response reply clinical_notes = Ok results
      /\ (5 < length results)%nat.
Proof.
  split; [|split].
  - intros query context. unfold _create_search_prompt.
    apply occurs_in_join. simpl. auto 30.
  - intros reply notes. eexists. split; [apply parse_response_eq|].
    apply length_sort_desc.
  - exists six_entries, [fell_note]. eexists. split; [|split; [|split]].
    + assert (Hgood : ~ malformed [fell_note]
                          (fragment "fell" " NOTE_ID: NOTE_0 RELEVANCE: 7 ")).
      { intros [H|[H|(ds & Hds & Hrange)]].
        - apply search_snippet_none in H. vm_compute in H. discriminate H.
        - apply search_note_id_none in H. vm_compute in H. discriminate H.
        - apply search_note_id_first in Hds. vm_compute in Hds.
          injection Hds as <-. vm_compute in Hrange. now apply Hrange. }
      change (sections_of six_entries)
        with (repeat (fragment "fell" " NOTE_ID: NOTE_0 RELEVANCE: 7 ") 6).
      simpl. repeat constructor; exact Hgood.
    + vm_compute. lia.
    + rewrite parse_response_eq. reflexivity.
    + rewrite length_sort_desc. vm_compute. lia.
Qed.

(** ** The orchestrator *)

(** C7: when the note store answers the empty list for the resident and
    the look-back date, [execute] returns the given query, no resident, no
    results and the fixed summary; the clock and the note store are the
    only collaborators called, the codec is not. *)
Theorem execute_without_notes {W : Type}
  (handle : forall X, call X -> W -> result X * W)
  (minus_days : datetime -> Z -> result datetime)
  (lookback_days : Z) (resident_id query : str)
  (w w1 w2 : W) (now since_date : datetime) :
  handle _ DatetimeNow w = (Ok now, w1) ->
  minus_days now lookback_days = Ok since_date ->
  handle _ (FindByResidentId resident_id (Some since_date)) w1 = (Ok [], w2) ->
  run handle
    (SearchClinicalNotesUseCase.execute minus_days lookback_days resident_id query) w
  = (Ok {| SearchResults.query := query;
           SearchResults.resident := None;
           SearchResults.results := [];
           SearchResults.summary :=
             py "No clinical notes found for the specified time period." |},
     w2,
     [Called DatetimeNow; Called (FindByResidentId resident_id (Some since_date))])
  /\ forall ev,
      In ev (snd (run handle
                    (SearchClinicalNotesUseCase.execute minus_days lookback_days
                       resident_id query) w)) ->
      is_codec_call ev = false.
Proof.
  intros Hnow Hsince Hfind.
  assert (run handle
            (SearchClinicalNotesUseCase.execute minus_days lookback_days
               resident_id query) w
          = (Ok {| SearchResults.query := query;
                   SearchResults.resident := None;
                   SearchResults.results := [];
                   SearchResults.summary :=
                     py "No clinical notes found for the specified time period." |},
             w2,
             [Called DatetimeNow;
              Called (FindByResidentId resident_id (Some since_date))])) as Hrun.
  { unfold SearchClinicalNotesUseCase.execute. cbn [run].
    rewrite Hnow, Hsince. cbn [SearchClinicalNotesUseCase.lift run].
    rewrite Hfind. reflexivity. }
  split; [exact Hrun|].
  rewrite Hrun. cbn [snd]. intros ev [<-|[<-|[]]]; reflexivity.
Qed.

Lemma execute_without_notes_witness :
  fst (run empty_store
         (SearchClinicalNotesUseCase.execute datetime_minus_days 14
            (py "RES999") (py "find falls")) tt)
  = (Ok {| SearchResults.query := py "find falls";
           SearchResults.resident := None;
           SearchResults.results := [];
           SearchResults.summary :=
             py "No clinical notes found for the specified time period." |},
     tt).
Proof.
  rewrite (proj1 (execute_without_notes empty_store datetime_minus_days 14
                    (py "RES999") (py "find falls") tt tt tt sample_datetime
                    {| year := 2025; month := 8; day := 1; hour := 14;
                       minute := 30; second := 0; microsecond := 0 |}
                    eq_refl eq_refl eq_refl)).
  reflexivity.
Defined.

(** ** The summary heuristic *)

Lemma first_description_at (mapping : list (str * str)) (q : str)
  (i : nat) (keyword phrase : str) :
  nth_error mapping i = Some (keyword, phrase) ->
  contains keyword q = true ->
  (forall j kw ph, (j < i)%nat -> nth_error mapping j = Some (kw, ph) ->
                   contains kw q = false) ->
  first_description mapping q = Some phrase.
Proof.
  revert i. induction mapping as [|[kw0 ph0] mapping IH]; intros i Hi Hin Hbefore.
  - now destruct i.
  - destruct i as [|i]; simpl in Hi |- *.
    + injection Hi as -> ->. now rewrite Hin.
    + rewrite (Hbefore O kw0 ph0) by (simpl; (lia || reflexivity)).
      apply (IH i); try assumption.
      intros j kw ph Hj Hnth. apply (Hbefore (S j) kw ph); [lia | exact Hnth].
Qed.

Lemma first_description_none (mapping : list (str * str)) (q : str) :
  (forall kw ph, In (kw, ph) mapping -> contains kw q = false) ->
  first_description mapping q = None.
Proof.
  induction mapping as [|[kw0 ph0] mapping IH]; intros H; simpl; [reflexivity|].
  rewrite (H kw0 ph0) by now left.
  apply IH. intros kw ph Hin. apply (H kw ph). now right.
Qed.

Lemma evidence_phrases_nonempty (keyword phrase : str) :
  In (keyword, phrase) evidence_mapping -> phrase <> [].
Proof.
  unfold evidence_mapping. simpl.
  intros H. repeat (destruct H as [[= <- <-]|H]; [discriminate|]). destruct H.
Qed.

Lemma not_occurs_false (p s : str) : ~ occurs_in p s -> contains p s = false.
Proof.
  intros H. destruct (contains p s) eqn:E; [|reflexivity].
  now apply contains_occurs_in in E.
Qed.

(** C8: [generate_summary] returns the fixed message exactly when there are
    no results; otherwise the first entry of the nine-entry table, in table
    order, whose keyword occurs in the lower-cased query gives the phrase
    of the sentence, and without such an entry the generic sentence is
    returned; the count is the number of results. *)
Theorem generate_summary_spec (query : str) (results : list QueryResult.t) :
  (generate_summary query results
   = py "No relevant clinical evidence found for your query."
   <-> results = [])
  /\ length evidence_mapping = 9%nat
  /\ (results <> [] ->
      forall i keyword phrase,
        nth_error evidence_mapping i = Some (keyword, phrase) ->
        occurs_in keyword (lower query) ->
        (forall j kw ph, (j < i)%nat ->
                         nth_error evidence_mapping j = Some (kw, ph) ->
                         ~ occurs_in kw (lower query)) ->
        generate_summary query results
        = py "I found " ++ str_of_nat (length results)
          ++ py " notes that may indicate " ++ phrase ++ py ":")
  /\ (results <> [] ->
      (forall kw ph, In (kw, ph) evidence_mapping -> ~ occurs_in kw (lower query)) ->
      generate_summary query results
      = py "I found " ++ str_of_nat (length results)
        ++ py " relevant notes for your query:").
Proof.
  repeat split.
  - destruct results as [|r rs]; [reflexivity|].
    unfold generate_summary.
    destruct (_extract_evidence_type query) as [[|c e]|]; intros H;
      apply (f_equal (fun s => nth_error s 0)) in H; discriminate H.
  - intros ->. reflexivity.
  - intros Hne i keyword phrase Hi Hocc Hbefore.
    destruct results as [|r rs]; [congruence|].
    unfold generate_summary, _extract_evidence_type.
    rewrite (first_description_at evidence_mapping (lower query) i keyword phrase).
    + pose proof (evidence_phrases_nonempty keyword phrase
                    (nth_error_In _ _ Hi)) as Hph.
      destruct phrase; [congruence | reflexivity].
    + exact Hi.
    + now apply contains_occurs_in.
    + intros j kw ph Hj Hnth. apply not_occurs_false. now apply (Hbefore j kw ph).
  - intros Hne Hnone.
    destruct results as [|r rs]; [congruence|].
    unfold generate_summary, _extract_evidence_type.
    rewrite first_description_none; [reflexivity|].
    intros kw ph Hin. apply not_occurs_false. now apply (Hnone kw ph).
Qed.

(** The scenario of the specification: a query about falls. *)
Lemma generate_summary_spec_witness :
  generate_summary (py "Any evidence of FALLS this week")
    [sample_result "fell twice" fell_note f_0_9]
  = py "I found 1 notes that may indicate fall risk or incidents:".
Proof.
  destruct (generate_summary_spec (py "Any evidence of FALLS this week")
              [sample_result "fell twice" fell_note f_0_9])
    as (_ & _ & Hfirst & _).
  rewrite (Hfirst ltac:(discriminate) 2%nat (py "fall") (py "fall risk or incidents")).
  - reflexivity.
  - reflexivity.
  - apply contains_occurs_in. vm_compute. reflexivity.
  - intros j kw ph Hj Hnth Hocc. apply contains_occurs_in in Hocc.
    destruct j as [|[|j]]; [| |lia]; injection Hnth as <- <-;
      vm_compute in Hocc; discriminate Hocc.
Defined.

(** ** The domain filter *)

Lemma fresh_unused (h : heap) : h !! (fresh (dom h)) = None.
Proof. apply not_elem_of_dom, is_fresh. Qed.

Lemma filter_has_note_type (note_type : NoteType) (items : list QueryResult.t)
  (r : QueryResult.t) :
  In r (List.filter (SearchResults.has_note_type note_type) items) <->
  In r items /\ ClinicalNote.note_type (QueryResult.source_note r) = note_type.
Proof.
  rewrite filter_In. unfold SearchResults.has_note_type.
  now rewrite bool_decide_eq_true.
Qed.

(** C9: [filter_by_note_type] returns a new object whose results are the
    results of [self] with the given note type, in their order, with the
    query and the resident of [self] and a summary that states the count;
    every object of the store, [self] and its list among them, is as it was
    before the call. *)
Theorem filter_by_note_type_frame (h : heap) (self : loc) (s : SearchResults.t)
  (note_type : NoteType) :
  read_search_results h self = Some s ->
  exists new h',
    filter_by_note_type_on h self note_type = Some (new, h')
    /\ (new ∉ dom h)
    /\ read_search_results h' new
       = Some (SearchResults.filter_by_note_type s note_type)
    /\ SearchResults.filter_by_note_type s note_type
       = {| SearchResults.query := SearchResults.query s;
                 SearchResults.resident := SearchResults.resident s;
                 SearchResults.results :=
                   List.filter
                     (fun r => bool_decide
                                 (ClinicalNote.note_type (QueryResult.source_note r)
                                  = note_type))
                     (SearchResults.results s);
                 SearchResults.summary :=
                   py "Filtered results for " ++ NoteType_value note_type
                   ++ py ": "
                   ++ str_of_nat
                        (length
                           (List.filter
                              (fun r => bool_decide
                                          (ClinicalNote.note_type
                                             (QueryResult.source_note r)
                                           = note_type))
                              (SearchResults.results s)))
                   ++ py " notes found" |}
    /\ (forall r,
          In r (List.filter
                  (fun r => bool_decide
                              (ClinicalNote.note_type (QueryResult.source_note r)
                               = note_type))
                  (SearchResults.results s))
          <-> In r (SearchResults.results s)
              /\ ClinicalNote.note_type (QueryResult.source_note r) = note_type)
    /\ (forall l o, h !! l = Some o -> h' !! l = Some o)
    /\ read_search_results h' self = Some s.
Proof.
  unfold read_search_results, filter_by_note_type_on.
  destruct (h !! self) as [[|q r res sm]|] eqn:Hself; try discriminate.
  destruct (h !! res) as [[items|]|] eqn:Hres; try discriminate.
  intros [= <-]. unfold alloc. cbn beta iota zeta.
  set (filtered := List.filter (SearchResults.has_note_type note_type) items).
  set (lf := fresh (dom h)).
  set (h1 := <[lf := ListObject filtered]> h).
  set (ls := fresh (dom h1)).
  set (o2 := SearchResultsObject q r lf _).
  assert (h !! lf = None) as Hlf by apply fresh_unused.
  assert (h1 !! ls = None) as Hls by apply fresh_unused.
  assert (forall l o, h !! l = Some o -> h1 !! l = Some o) as Hframe1.
  { intros l o Hl. subst h1. rewrite lookup_insert_ne; [exact Hl | congruence]. }
  assert (forall l o, h1 !! l = Some o -> (<[ls := o2]> h1) !! l = Some o) as Hframe2.
  { intros l o Hl. rewrite lookup_insert_ne; [exact Hl | congruence]. }
  exists ls, (<[ls := o2]> h1).
  split; [reflexivity|]. split; [|split; [|split; [|split; [|split]]]].
  - apply not_elem_of_dom.
    destruct (h !! ls) as [o|] eqn:E; [|reflexivity].
    apply Hframe1 in E. congruence.
  - rewrite lookup_insert_eq. subst o2. cbn beta iota.
    rewrite (Hframe2 lf (ListObject filtered)).
    + reflexivity.
    + subst h1. apply lookup_insert_eq.
  - reflexivity.
  - intros r0. apply filter_has_note_type.
  - intros l o Hl. now apply Hframe2, Hframe1.
  - rewrite (Hframe2 _ _ (Hframe1 _ _ Hself)), (Hframe2 _ _ (Hframe1 _ _ Hres)).
    reflexivity.
Qed.

Lemma filter_by_note_type_frame_witness :
  exists new h',
    filter_by_note_type_on sample_heap 2%positive THERAPY = Some (new, h')
    /\ (new ∉ dom sample_heap)
    /\ read_search_results h' new
       = Some {| SearchResults.query := py "any falls?";
                 SearchResults.resident := None;
                 SearchResults.results :=
                   [sample_result "two-person assist" assist_note f_half];
                 SearchResults.summary :=
                   py "Filtered results for Therapy: 1 notes found" |}
    /\ read_search_results h' 2%positive
       = Some {| SearchResults.query := py "any falls?";
                 SearchResults.resident := None;
                 SearchResults.results :=
                   [sample_result "fell twice" fell_note f_0_9;
                    sample_result "two-person assist" assist_note f_half];
                 SearchResults.summary :=
                   py "I found 2 relevant notes for your query:" |}.
Proof.
  destruct (filter_by_note_type_frame sample_heap 2%positive _ THERAPY eq_refl)
    as (new & h' & Hcall & Hnew & Hread & Hvalue & _ & _ & Hself).
  exists new, h'. split; [exact Hcall|]. split; [exact Hnew|].
  split; [|exact Hself]. rewrite Hread, Hvalue. reflexivity.
Defined.

(** ** More on the codec *)

Lemma split_from_absent (sep s : str) :
  contains sep s = false -> split_from sep 0 s = [s].
Proof.
  induction s as [|c s IH]; intros H; [reflexivity|].
  simpl in H. apply orb_false_elim in H as [Hhere Hlater].
  cbn [split_from]. rewrite Hhere, (IH Hlater). reflexivity.
Qed.

Lemma split_from_skip (sep u rest : str) :
  split_from sep (length u) (u ++ rest) = split_from sep 0 rest.
Proof.
  induction u as [|c u IH]; simpl; [|exact IH].
  now destruct rest.
Qed.

(** Up to the first occurrence of the separator. *)
Lemma split_first (sep pre rest : str) :
  sep <> [] ->
  (forall a b, pre = a ++ b -> b <> [] ->
               starts_with sep (b ++ sep ++ rest) = false) ->
  split sep (pre ++ sep ++ rest) = pre :: split sep rest.
Proof.
  intros Hsep. unfold split. induction pre as [|c pre IH]; intros Hfirst.
  - destruct sep as [|s0 sep]; [congruence|].
    cbn [app split_from]. change (s0 :: sep ++ rest) with ((s0 :: sep) ++ rest).
    rewrite starts_with_app. cbn [length Nat.pred].
    now rewrite split_from_skip.
  - cbn [app split_from].
    pose proof (Hfirst [] (c :: pre) eq_refl ltac:(discriminate)) as Hc.
    cbn [app] in Hc. rewrite Hc.
    rewrite IH; [reflexivity|].
    intros a b -> Hb. apply (Hfirst (c :: a) b); [reflexivity | exact Hb].
Qed.

Lemma contains_app_r (p a b : str) : contains p b = true -> contains p (a ++ b) = true.
Proof.
  intros H. apply contains_occurs_in in H as (x & y & ->).
  apply contains_occurs_in. exists (a ++ x), y. now rewrite <- app_assoc.
Qed.

Lemma contains_app_l (p a b : str) : contains p a = true -> contains p (a ++ b) = true.
Proof.
  intros H. apply contains_occurs_in in H as (x & y & ->).
  apply contains_occurs_in. exists x, (y ++ b). now rewrite <- !app_assoc.
Qed.

(** The token has no proper overlap with itself: an occurrence that starts
    inside a text followed by the token lies inside the text. *)
Lemma token_starts_inside (b rest : str) :
  b <> [] ->
  starts_with (py "SNIPPET:") (b ++ py "SNIPPET:" ++ rest) = true ->
  starts_with (py "SNIPPET:") b = true.
Proof.
  intros Hb H.
  change (py "SNIPPET:") with ["S"; "N"; "I"; "P"; "P"; "E"; "T"; ":"]%char in *.
  destruct b as [|b0 [|b1 [|b2 [|b3 [|b4 [|b5 [|b6 [|b7 b]]]]]]]];
    [congruence| | | | | | | |];
    cbn [app starts_with] in H |- *;
    repeat match type of H with
           | (_ && _) = true => let Hc := fresh "Hc" in apply andb_prop in H as [Hc H]
           end;
    try (exfalso;
         match goal with
         | Hc : Ascii.eqb ?x "S" = true |- _ => clear - Hc; vm_compute in Hc;
                                                  discriminate Hc
         end).
  repeat match goal with
         | Hc : Ascii.eqb _ _ = true |- _ => rewrite Hc; clear Hc
         end.
  reflexivity.
Qed.

Lemma token_first (pre rest : str) :
  contains (py "SNIPPET:") pre = false ->
  forall a b, pre = a ++ b -> b <> [] ->
              starts_with (py "SNIPPET:") (b ++ py "SNIPPET:" ++ rest) = false.
Proof.
  intros Hpre a b -> Hb.
  destruct (starts_with _ (b ++ _)) eqn:E; [|reflexivity].
  apply token_starts_inside in E; [|exact Hb].
  assert (contains (py "SNIPPET:") b = true) as Hin.
  { destruct b; simpl in *; now rewrite E. }
  rewrite (contains_app_r _ a b Hin) in Hpre. discriminate.
Qed.

Lemma split_head_prefix (sep s : str) :
  sep <> [] -> exists p ps r, split_from sep 0 s = p :: ps /\ s = p ++ r.
Proof.
  intros Hsep. pose proof (join_split_from sep 0 s Hsep) as Hj.
  pose proof (split_from_nonempty sep 0 s) as Hne.
  destruct (split_from sep 0 s) as [|p ps]; [congruence|].
  exists p, ps. cbn [skipn] in Hj. destruct ps as [|p' ps].
  - exists []. split; [reflexivity|]. simpl in Hj. now rewrite app_nil_r.
  - exists (sep ++ join sep (p' :: ps)). split; [reflexivity|].
    symmetry. exact Hj.
Qed.

Lemma starts_with_longer (sep a r : str) :
  starts_with sep a = true -> starts_with sep (a ++ r) = true.
Proof.
  intros H. apply starts_with_spec in H as [x ->].
  rewrite <- app_assoc. apply starts_with_app.
Qed.

(** No piece of a split contains the separator. *)
Lemma split_from_clean (sep : str) (k : nat) (s : str) :
  sep <> [] -> Forall (fun p => contains sep p = false) (split_from sep k s).
Proof.
  intros Hsep. revert k. induction s as [|c s IH]; intros k.
  - simpl. constructor; [|constructor].
    destruct sep; [congruence | reflexivity].
  - cbn [split_from]. destruct k as [|k]; [|apply IH].
    destruct (starts_with sep (c :: s)) eqn:E.
    + constructor; [|apply IH]. destruct sep; [congruence | reflexivity].
    + destruct (split_head_prefix sep s Hsep) as (p & ps & r & Hp & Hs).
      specialize (IH O). rewrite Hp in IH |- *. cbn [push_char].
      inversion IH as [|? ? Hclean Hrest]; subst.
      constructor; [|exact Hrest].
      cbn [contains]. rewrite Hclean, orb_false_r.
      destruct (starts_with sep (c :: p)) eqn:E'; [|reflexivity].
      apply (starts_with_longer sep (c :: p) r) in E'.
      cbn [app] in E'. rewrite E' in E. discriminate.
Qed.


Lemma not_occurs_contains (p s : str) : ~ occurs_in p s <-> contains p s = false.
Proof.
  split.
  - apply not_occurs_false.
  - intros H Hocc. apply contains_occurs_in in Hocc. congruence.
Qed.

(** X1: a reply in which the token [SNIPPET:] does not occur, the empty
    reply among them, is parsed to the empty list. *)
Theorem reply_without_token (reply : str) (clinical_notes : list ClinicalNote.t) :
  ~ occurs_in (py "SNIPPET:") reply ->
  _parse_search_response reply clinical_notes = Ok [].
Proof.
  intros H. apply not_occurs_contains in H.
  rewrite parse_response_eq. unfold sections_of, split.
  now rewrite (split_from_absent _ _ H).
Qed.

Lemma reply_without_token_witness :
  _parse_search_response (py "Nothing relevant was documented.") two_notes = Ok [].
Proof.
  apply reply_without_token. apply not_occurs_contains. vm_compute. reflexivity.
Defined.

Lemma first_note_id_all_digits (f ds : str) :
  first_note_id f ds -> all_of is_digit ds.
Proof. intros (pre & (ws & post & _ & _ & _ & H & _) & _). exact H. Qed.

(** X2: without notes nothing is extracted, whatever the reply says and
    whatever the generation service does. *)
Theorem no_notes_no_results (generate_content : str -> result str)
  (query reply : str) :
  _parse_search_response reply [] = Ok []
  /\ fst (process_query generate_content query []) = Ok [].
Proof.
  assert (forall f, contribution [] f = None) as Hnone.
  { intros f. unfold contribution. rewrite parse_section_eq.
    destruct (re_search snippet_re f) as [[|q g]|]; try reflexivity.
    destruct (re_search note_id_re f) as [g'|] eqn:E; [|reflexivity].
    apply search_note_id in E as (ds & -> & Hds).
    unfold py_int. destruct (_ <? _)%nat; [reflexivity|].
    pose proof (digits_value_nonneg ds (first_note_id_all_digits _ _ Hds)) as H0.
    assert ((Z.of_nat (length (@nil ClinicalNote.t)) <=? digits_value ds) = true)
      as -> by (apply Z.leb_le; simpl; lia).
    reflexivity. }
  assert (forall reply, _parse_search_response reply [] = Ok []) as Hparse.
  { intros r. rewrite parse_response_eq.
    assert (forall secs, omap (contribution []) secs = []) as ->; [|reflexivity].
    induction secs as [|f secs IH]; [reflexivity|].
    simpl. now rewrite Hnone. }
  split; [apply Hparse|].
  unfold process_query. destruct (generate_content _) as [text|e]; simpl.
  - now rewrite Hparse.
  - reflexivity.
Qed.

(** X3: what precedes the first [SNIPPET:] token is discarded: a preamble
    in which the token does not occur changes neither the fragments nor
    the results. *)
Theorem preamble_discarded (pre rest : str) (clinical_notes : list ClinicalNote.t) :
  ~ occurs_in (py "SNIPPET:") pre ->
  sections_of (pre ++ py "SNIPPET:" ++ rest) = split (py "SNIPPET:") rest
  /\ _parse_search_response (pre ++ py "SNIPPET:" ++ rest) clinical_notes
     = _parse_search_response (py "SNIPPET:" ++ rest) clinical_notes.
Proof.
  intros H. apply not_occurs_contains in H.
  assert (forall p, contains (py "SNIPPET:") p = false ->
                    sections_of (p ++ py "SNIPPET:" ++ rest)
                    = split (py "SNIPPET:") rest) as Hsec.
  { intros p Hp. unfold sections_of.
    rewrite split_first; [reflexivity | discriminate | now apply token_first]. }
  split; [now apply Hsec|].
  rewrite !parse_response_eq, (Hsec pre H).
  change (py "SNIPPET:" ++ rest) with ([] ++ py "SNIPPET:" ++ rest).
  now rewrite (Hsec [] eq_refl).
Qed.

Lemma preamble_discarded_witness :
  _parse_search_response
    (py "Sure, here are the SNIPPETs I found:" ++ py "SNIPPET:"
     ++ fragment "fell twice" " NOTE_ID: NOTE_0 RELEVANCE: 9") two_notes
  = _parse_search_response
      (py "SNIPPET:" ++ fragment "fell twice" " NOTE_ID: NOTE_0 RELEVANCE: 9")
      two_notes.
Proof.
  apply (preamble_discarded (py "Sure, here are the SNIPPETs I found:")).
  apply not_occurs_contains. vm_compute. reflexivity.
Defined.

(** X4: splitting loses nothing and separates the entries: joined by the
    token the pieces give the reply back, and no fragment contains the
    token. *)
Theorem fragments_lossless_and_clean (reply : str) :
  join (py "SNIPPET:") (split (py "SNIPPET:") reply) = reply
  /\ Forall (fun f => ~ occurs_in (py "SNIPPET:") f) (sections_of reply).
Proof.
  split.
  - apply join_split. discriminate.
  - unfold sections_of, split.
    pose proof (split_from_clean (py "SNIPPET:") 0 reply ltac:(discriminate)) as H.
    destruct (split_from _ 0 reply) as [|p ps]; [constructor|].
    inversion H as [|? ? _ Hps]; subst. cbn [tail].
    apply Forall_forall. intros f Hf.
    apply not_occurs_contains. revert f Hf. now apply Forall_forall.
Qed.

(** X5: a well-formed fragment is accepted: when its first quoted text is
    [q], the digits of its first [NOTE_ID] are at most 4300 and name a
    supplied note, the loop appends exactly the result made of [q], that
    note and the relevance of the fragment. *)
Theorem well_formed_fragment_accepted (clinical_notes : list ClinicalNote.t)
  (f q ds : str) (note : ClinicalNote.t) :
  first_quoted f q -> first_note_id f ds ->
  (length ds <= int_max_str_digits)%nat ->
  nth_error clinical_notes (Z.to_nat (digits_value ds)) = Some note ->
  parse_section clinical_notes f
  = Ok (Some {| QueryResult.snippet := q;
                QueryResult.source_note := note;
                QueryResult.relevance_score := relevance_of f |}).
Proof.
  intros Hq Hds Hlen Hnote.
  pose proof (digits_value_nonneg ds (first_note_id_all_digits _ _ Hds)) as H0.
  apply search_snippet_first in Hq. apply search_note_id_first in Hds.
  rewrite parse_section_eq, Hq, Hds. unfold py_int.
  apply Nat.ltb_ge in Hlen. rewrite Hlen.
  assert (Z.to_nat (digits_value ds) < length clinical_notes)%nat as Hlt.
  { apply nth_error_Some. congruence. }
  destruct (Z.of_nat (length clinical_notes) <=? digits_value ds) eqn:E.
  - apply Z.leb_le in E. lia.
  - now rewrite Hnote.
Qed.

Lemma well_formed_fragment_accepted_witness :
  parse_section two_notes (fragment "two-person assist" " NOTE_ID: NOTE_1")
  = Ok (Some (sample_result "two-person assist" assist_note f_half)).
Proof.
  rewrite (well_formed_fragment_accepted two_notes
             (fragment "two-person assist" " NOTE_ID: NOTE_1")
             (py "two-person assist") (py "1") assist_note).
  - vm_compute. reflexivity.
  - apply search_snippet_first. vm_compute. reflexivity.
  - apply search_note_id_first. vm_compute. reflexivity.
  - vm_compute. lia.
  - reflexivity.
Defined.

(** Quoting a text and searching the quote gives the text back. *)
Lemma search_quoted (q : str) :
  q <> [] -> all_of not_dquote q ->
  re_search snippet_re ([dquote] ++ q ++ [dquote]) = Some [q].
Proof.
  intros Hne Hq. apply search_snippet_first. exists []. split.
  - exists []. repeat split; assumption.
  - intros pre' x' _. simpl. lia.
Qed.

(** The results are the contributions of the fragments. *)
Lemma parsed_results_origin (reply : str) (clinical_notes : list ClinicalNote.t) :
  exists results,
    _parse_search_response reply clinical_notes = Ok results
    /\ forall r, In r results <->
                 exists f, In f (sections_of reply)
                           /\ contribution clinical_notes f = Some r.
Proof.
  eexists. split; [apply parse_response_eq|].
  intros r. rewrite <- in_contributions. split; intros H.
  - now apply (Permutation_in _ (sort_desc_perm _ _)) in H.
  - now apply (Permutation_in _ (Permutation_sym (sort_desc_perm _ _))).
Qed.

(** X6: a parsed result's [quoted_snippet] reads back: the snippet pattern
    finds in it exactly the snippet. *)
Theorem quoted_snippet_round_trip (reply : str)
  (clinical_notes : list ClinicalNote.t) :
  exists results,
    _parse_search_response reply clinical_notes = Ok results
    /\ forall r, In r results ->
         re_search snippet_re (QueryResult.quoted_snippet r)
         = Some [QueryResult.snippet r].
Proof.
  destruct (parsed_results_origin reply clinical_notes) as (results & Hp & Hall).
  exists results. split; [exact Hp|].
  intros r Hr. apply Hall in Hr as (f & _ & Hc).
  apply contribution_some in Hc as (q & ds & Hq & _ & _ & _ & _ & Hsn & _).
  destruct (first_quoted_nonempty _ _ Hq) as (Hne & Hall' & _).
  unfold QueryResult.quoted_snippet. rewrite Hsn. now apply search_quoted.
Qed.


(** ** Numbers as text *)

Lemma uint_digits (d : uint) (n : nat) :
  all_of is_digit (py (NilEmpty.string_of_uint d))
  /\ fold_left (fun a c => 10 * a + digit_value c)
       (py (NilEmpty.string_of_uint d)) (Z.of_nat n)
     = Z.of_nat (Nat.of_uint_acc d n).
Proof.
  revert n. induction d as [|d IH|d IH|d IH|d IH|d IH|d IH|d IH|d IH|d IH|d IH];
    intros n; [split; [constructor | reflexivity]|..];
    cbn [NilEmpty.string_of_uint py list_ascii_of_string fold_left Nat.of_uint_acc];
    (split;
     [ constructor; [reflexivity | apply (IH n)]
     | rewrite Nat.tail_mul_spec;
       match goal with
       | |- fold_left _ _ ?z = Z.of_nat (Nat.of_uint_acc _ ?m) =>
           replace z with (Z.of_nat m);
           [ apply (proj2 (IH m))
           | unfold digit_value, code; cbn [N_of_ascii N_of_digits]; lia ]
       end ]).
Qed.

Lemma str_of_nat_digits (n : nat) : all_of is_digit (str_of_nat n).
Proof. apply (proj1 (uint_digits (Nat.to_uint n) 0)). Qed.

(** [int(str(n)) == n] *)
Lemma digits_value_str_of_nat (n : nat) : digits_value (str_of_nat n) = Z.of_nat n.
Proof.
  unfold digits_value, str_of_nat.
  change 0 with (Z.of_nat 0). rewrite (proj2 (uint_digits (Nat.to_uint n) 0)).
  f_equal. apply DecimalNat.Unsigned.of_to.
Qed.

Lemma str_of_nat_nonempty (n : nat) : str_of_nat n <> [].
Proof.
  unfold str_of_nat.
  assert (Nat.to_uint n <> Nil) as Hne.
  { rewrite <- (DecimalNat.Unsigned.of_to n) at 1.
    rewrite DecimalNat.Unsigned.to_of. apply DecimalFacts.unorm_nonnil. }
  destruct (Nat.to_uint n); [congruence|..]; discriminate.
Qed.

Lemma digits_value_leading_zeros (k : nat) (ds : str) :
  digits_value (repeat "0"%char k ++ ds) = digits_value ds.
Proof.
  unfold digits_value. induction k as [|k IH]; [reflexivity|]. exact IH.
Qed.

(** [int(f"{n:03d}") == n], for any width *)
Lemma digits_value_zero_pad (width n : nat) :
  digits_value (zero_pad width n) = Z.of_nat n.
Proof.
  unfold zero_pad. now rewrite digits_value_leading_zeros, digits_value_str_of_nat.
Qed.

Lemma enumerate_from_nth {A} (l : list A) (k i : nat) (x : A) :
  nth_error l i = Some x -> In ((k + i)%nat, x) (enumerate_from k l).
Proof.
  revert k i. induction l as [|y l IH]; intros k i H; [now destruct i|].
  destruct i as [|i]; simpl in H |- *.
  - injection H as ->. left. f_equal. lia.
  - right. replace (k + S i)%nat with (S k + i)%nat by lia. now apply IH.
Qed.

Lemma occurs_in_app_l (p a b : str) : occurs_in p a -> occurs_in p (a ++ b).
Proof. intros (x & y & ->). exists x, (y ++ b). now rewrite <- !app_assoc. Qed.


Lemma occurs_in_refl (p : str) : occurs_in p p.
Proof. exists [], []. simpl. now rewrite app_nil_r. Qed.

Lemma str_of_nat_inj (i j : nat) : str_of_nat i = str_of_nat j -> i = j.
Proof.
  intros H. apply Nat2Z.inj. now rewrite <- !digits_value_str_of_nat, H.
Qed.

(** A run of digits closed by a character that is not a digit is read off
    the text in one way only. *)
Lemma digits_prefix (c : ascii) (a b rest : str) :
  all_of is_digit a -> all_of is_digit b -> is_digit c = false ->
  starts_with (a ++ [c]) (b ++ c :: rest) = true -> a = b.
Proof.
  intros Ha Hb Hc. revert b Hb.
  induction Ha as [|x a Hx Ha IH]; intros b Hb H.
  - destruct Hb as [|y b Hy Hb]; [reflexivity|].
    cbn [app starts_with] in H. apply andb_prop in H as [H _].
    apply Ascii.eqb_eq in H. subst y. congruence.
  - destruct Hb as [|y b Hy Hb]; cbn [app starts_with] in H;
      apply andb_prop in H as [H Hrest]; apply Ascii.eqb_eq in H.
    + subst x. congruence.
    + subst y. f_equal. now apply IH.
Qed.

Lemma starts_with_cancel (p x y : str) :
  starts_with (p ++ x) (p ++ y) = starts_with x y.
Proof.
  induction p as [|a p IH]; [reflexivity|].
  cbn [app starts_with]. now rewrite Ascii.eqb_refl, IH.
Qed.

(** The heading [NOTE_<i>:] opens the block of position [i] and of no
    other position. *)
Lemma note_block_heading (i j : nat) (note : ClinicalNote.t) :
  starts_with (py "NOTE_" ++ str_of_nat i ++ py ":") (note_block j note) = true
  <-> j = i.
Proof.
  unfold note_block. rewrite starts_with_cancel. split.
  - intros H. symmetry. apply str_of_nat_inj.
    apply (digits_prefix ":"%char _ _ _ (str_of_nat_digits i)
             (str_of_nat_digits j) eq_refl H).
  - intros ->. rewrite starts_with_cancel. reflexivity.
Qed.

Lemma block_in_context (clinical_notes : list ClinicalNote.t) (i : nat)
  (note : ClinicalNote.t) :
  nth_error clinical_notes i = Some note ->
  occurs_in (note_block i note) (_prepare_context clinical_notes).
Proof.
  intros Hnote. unfold _prepare_context. apply occurs_in_join.
  apply (in_map (fun '(i, note) => note_block i note) _ (i, note)).
  now apply (enumerate_from_nth clinical_notes 0 i).
Qed.

(** X7: the identifier [_prepare_context] gives a note reads back as that
    note.  The block of the note at position [i] is in the context, and
    the heading [NOTE_<i>:] opens the block of position [i] and of no
    other position; and a fragment of the reply, wherever in it the first
    [NOTE_ID] stands, whose first [NOTE_ID] cites [NOTE_<i>] and which has
    a quoted text, is parsed by the loop body to a result whose source is
    that very note (for identifiers of at most 4300 digits). *)
Theorem note_identifier_round_trip (clinical_notes : list ClinicalNote.t)
  (i : nat) (note : ClinicalNote.t) (f q : str) :
  nth_error clinical_notes i = Some note ->
  (length (str_of_nat i) <= int_max_str_digits)%nat ->
  first_quoted f q ->
  first_note_id f (str_of_nat i) ->
  occurs_in (note_block i note) (_prepare_context clinical_notes)
  /\ (forall j note',
         starts_with (py "NOTE_" ++ str_of_nat i ++ py ":") (note_block j note')
         = true <-> j = i)
  /\ parse_section clinical_notes f
     = Ok (Some {| QueryResult.snippet := q;
                   QueryResult.source_note := note;
                   QueryResult.relevance_score := relevance_of f |}).
Proof.
  intros Hnote Hlen Hq Hid. split; [|split].
  - now apply block_in_context.
  - intros j note'. apply note_block_heading.
  - apply search_snippet_first in Hq. apply search_note_id_first in Hid.
    rewrite parse_section_eq, Hq, Hid. unfold py_int.
    apply Nat.ltb_ge in Hlen. rewrite Hlen.
    rewrite digits_value_str_of_nat, Nat2Z.id.
    assert (i < length clinical_notes)%nat as Hlt
        by (apply nth_error_Some; congruence).
    destruct (Z.of_nat (length clinical_notes) <=? Z.of_nat i) eqn:E.
    + apply Z.leb_le in E. lia.
    + now rewrite Hnote.
Qed.

Lemma note_identifier_round_trip_witness :
  parse_section two_notes
    (fragment "two-person assist" " as cited. NOTE_ID: NOTE_1 RELEVANCE: 7")
  = Ok (Some (sample_result "two-person assist" assist_note
                (float_div (py_float (py "7")) f_ten))).
Proof.
  destruct (note_identifier_round_trip two_notes 1 assist_note
              (fragment "two-person assist"
                 " as cited. NOTE_ID: NOTE_1 RELEVANCE: 7")
              (py "two-person assist"))
    as (_ & _ & Hparse).
  - reflexivity.
  - vm_compute. lia.
  - apply search_snippet_first. vm_compute. reflexivity.
  - apply search_note_id_first. vm_compute. reflexivity.
  - rewrite Hparse. vm_compute. reflexivity.
Defined.



Lemma first_description_sound (mapping : list (str * str)) (q d : str) :
  first_description mapping q = Some d ->
  exists keyword, In (keyword, d) mapping /\ contains keyword q = true.
Proof.
  induction mapping as [|[kw ph] mapping IH]; simpl; [discriminate|].
  destruct (contains kw q) eqn:E.
  - intros [= <-]. exists kw. auto.
  - intros H. destruct (IH H) as (k & Hin & Hk). exists k. auto.
Qed.

(** X9: the summary of a non-empty result list never names an evidence
    type the query does not ask for: it is the generic sentence, or the
    sentence with the phrase of a table entry whose keyword occurs in the
    lower-cased query. *)
Theorem summary_phrase_is_justified (query : str) (results : list QueryResult.t) :
  results <> [] ->
  generate_summary query results
  = py "I found " ++ str_of_nat (length results)
    ++ py " relevant notes for your query:"
  \/ exists keyword phrase,
      In (keyword, phrase) evidence_mapping
      /\ occurs_in keyword (lower query)
      /\ generate_summary query results
         = py "I found " ++ str_of_nat (length results)
           ++ py " notes that may indicate " ++ phrase ++ py ":".
Proof.
  intros Hne. destruct results as [|r rs]; [congruence|].
  unfold generate_summary, _extract_evidence_type.
  destruct (first_description evidence_mapping (lower query)) as [d|] eqn:E;
    [|now left].
  destruct (first_description_sound _ _ _ E) as (kw & Hin & Hkw).
  destruct d as [|c d]; [now left|].
  right. exists kw, (c :: d). repeat split; try assumption.
  now apply contains_occurs_in.
Qed.

Lemma summary_phrase_is_justified_witness :
  generate_summary (py "Is she in PAIN?") [sample_result "fell twice" fell_note f_half]
  = py "I found 1 relevant notes for your query:"
  \/ exists keyword phrase,
      In (keyword, phrase) evidence_mapping
      /\ occurs_in keyword (lower (py "Is she in PAIN?"))
      /\ generate_summary (py "Is she in PAIN?")
           [sample_result "fell twice" fell_note f_half]
         = py "I found 1 notes that may indicate " ++ phrase ++ py ":".
Proof.
  apply (summary_phrase_is_justified (py "Is she in PAIN?")
           [sample_result "fell twice" fell_note f_half]).
  discriminate.
Defined.


(** ** More on the domain filter *)

Lemma filter_filter_same {A} (f : A -> bool) (l : list A) :
  List.filter f (List.filter f l) = List.filter f l.
Proof.
  induction l as [|x l IH]; simpl; [reflexivity|].
  destruct (f x) eqn:E; simpl; [now rewrite E, IH | exact IH].
Qed.

Lemma filter_filter_disjoint {A} (f g : A -> bool) (l : list A) :
  (forall x, f x = true -> g x = false) ->
  List.filter g (List.filter f l) = [].
Proof.
  intros H. induction l as [|x l IH]; simpl; [reflexivity|].
  destruct (f x) eqn:E; simpl; [now rewrite (H x E) | exact IH].
Qed.

(** X10: filtering twice by the same note type changes nothing more (the
    results and the summary are those of the first filter), and filtering
    the outcome by another note type leaves no result. *)
Theorem filter_by_note_type_twice (s : SearchResults.t) (t t' : NoteType) :
  SearchResults.filter_by_note_type (SearchResults.filter_by_note_type s t) t
  = SearchResults.filter_by_note_type s t
  /\ (t <> t' ->
      SearchResults.results
        (SearchResults.filter_by_note_type
           (SearchResults.filter_by_note_type s t) t') = []).
Proof.
  split.
  - unfold SearchResults.filter_by_note_type. cbn.
    now rewrite filter_filter_same.
  - intros Hne. unfold SearchResults.filter_by_note_type. cbn.
    apply filter_filter_disjoint. intros r Hr.
    unfold SearchResults.has_note_type in *.
    apply bool_decide_eq_true in Hr. apply bool_decide_eq_false. congruence.
Qed.

Lemma filter_by_note_type_twice_witness :
  SearchResults.results
    (SearchResults.filter_by_note_type
       (SearchResults.filter_by_note_type
          {| SearchResults.query := py "any falls?";
             SearchResults.resident := None;
             SearchResults.results :=
               [sample_result "fell twice" fell_note f_0_9;
                sample_result "two-person assist" assist_note f_half];
             SearchResults.summary := [] |} THERAPY) NURSING) = [].
Proof.
  apply (proj2 (filter_by_note_type_twice _ THERAPY NURSING)). discriminate.
Defined.

Lemma has_one_note_type (r : QueryResult.t) :
  (Nat.b2n (SearchResults.has_note_type NURSING r)
   + Nat.b2n (SearchResults.has_note_type THERAPY r)
   + Nat.b2n (SearchResults.has_note_type CNA r)
   + Nat.b2n (SearchResults.has_note_type SOCIAL_WORK r)
   + Nat.b2n (SearchResults.has_note_type PHYSICIAN r) = 1)%nat.
Proof.
  unfold SearchResults.has_note_type.
  now destruct (ClinicalNote.note_type (QueryResult.source_note r)).
Qed.

Lemma length_filter_cons {A} (f : A -> bool) (x : A) (l : list A) :
  length (List.filter f (x :: l)) = (Nat.b2n (f x) + length (List.filter f l))%nat.
Proof. simpl. now destruct (f x). Qed.

(** X11: the five filters partition the results: the counts of the
    filtered aggregates add up to the count of the aggregate. *)
Theorem filter_counts_partition (s : SearchResults.t) :
  SearchResults.count s
  = (SearchResults.count (SearchResults.filter_by_note_type s NURSING)
     + SearchResults.count (SearchResults.filter_by_note_type s THERAPY)
     + SearchResults.count (SearchResults.filter_by_note_type s CNA)
     + SearchResults.count (SearchResults.filter_by_note_type s SOCIAL_WORK)
     + SearchResults.count (SearchResults.filter_by_note_type s PHYSICIAN))%nat.
Proof.
  unfold SearchResults.count, SearchResults.filter_by_note_type.
  cbn [SearchResults.results].
  induction (SearchResults.results s) as [|r rs IH]; [reflexivity|].
  rewrite !length_filter_cons. cbn [length].
  pose proof (has_one_note_type r). lia.
Qed.

(** ** Order of floats *)

Lemma finite_le (m1 m2 : positive) (e1 e2 : Z) :
  float_le (S754_finite false m1 e1) (S754_finite false m2 e2) = true
  <-> e1 < e2 \/ (e1 = e2 /\ (m1 <= m2)%positive).
Proof.
  unfold float_le, SFleb. cbn [SFcompare].
  destruct (Z.compare_spec e1 e2) as [->|Hlt|Hgt].
  - change (PosDef.Pos.compare_cont Eq m1 m2) with (Pos.compare m1 m2).
    destruct (Pos.compare_spec m1 m2) as [->|Hm|Hm]; split; intros H;
      try discriminate; try reflexivity; try (right; split; lia).
    destruct H as [H|[_ H]]; lia.
  - split; [intros _; now left | reflexivity].
  - split; [discriminate | intros [H|[H _]]; lia].
Qed.

(** [<=] is transitive on the numbers at least zero. *)
Lemma float_le_trans (x y z : float) :
  float_le f_zero x = true -> float_le f_zero y = true ->
  float_le f_zero z = true ->
  float_le x y = true -> float_le y z = true -> float_le x z = true.
Proof.
  intros Hx Hy Hz.
  destruct x as [sx|[]| |[] mx ex]; try discriminate Hx;
    destruct y as [sy|[]| |[] my ey]; try discriminate Hy;
    destruct z as [sz|[]| |[] mz ez]; try discriminate Hz;
    try reflexivity; try discriminate; try (intros _ H; exact H).
  rewrite !finite_le. lia.
Qed.

Section Descending.
Context {A : Type} (key : A -> float).

Lemma descending_strongly (l : list A) :
  Forall (number_key key) l -> Sorted (ge_key key) l ->
  StronglySorted (number_ge key) l.
Proof.
  intros Hn Hs. apply Sorted_StronglySorted.
  - intros a b c (Ha & Hb & Hab) (_ & Hc & Hbc). repeat split; try assumption.
    unfold ge_key, number_key in *.
    now apply (float_le_trans (key c) (key b) (key a)).
  - induction Hs as [|x l Hs IH Hhd]; [constructor|].
    inversion Hn as [|? ? Hx Hl]; subst.
    constructor; [now apply IH|].
    destruct Hhd as [|y l Hxy]; constructor.
    inversion Hl; subst. repeat split; assumption.
Qed.

Lemma strongly_filter (f : A -> bool) (l : list A) :
  StronglySorted (number_ge key) l ->
  StronglySorted (number_ge key) (List.filter f l).
Proof.
  induction 1 as [|x l Hs IH Hall]; simpl; [constructor|].
  destruct (f x); [|exact IH].
  constructor; [exact IH|].
  apply List.Forall_forall. intros y Hy. apply filter_In in Hy as [Hy _].
  revert y Hy. now apply List.Forall_forall.
Qed.

Lemma number_ge_sorted (l : list A) :
  Sorted (number_ge key) l -> Sorted (ge_key key) l.
Proof.
  induction 1 as [|x l Hs IH Hhd]; constructor; [exact IH|].
  destruct Hhd as [|y l (_ & _ & Hxy)]; constructor. exact Hxy.
Qed.

(** A descending list of numbers stays descending when filtered. *)
Lemma descending_filter (f : A -> bool) (l : list A) :
  Forall (number_key key) l -> Sorted (ge_key key) l ->
  descending key (List.filter f l).
Proof.
  intros Hn Hs. apply sorted_descending, number_ge_sorted.
  apply StronglySorted_Sorted, strongly_filter. now apply descending_strongly.
Qed.
End Descending.

(** X12: filtering keeps the order of relevance: the results of a parsed
    reply, filtered by any note type, are still in descending order of
    relevance, and each of them is one of the parsed results. *)
Theorem filtered_results_descending (reply query summary : str)
  (clinical_notes : list ClinicalNote.t) (t : NoteType) :
  exists results,
    _parse_search_response reply clinical_notes = Ok results
    /\ let filtered :=
         SearchResults.results
           (SearchResults.filter_by_note_type
              {| SearchResults.query := query; SearchResults.resident := None;
                 SearchResults.results := results;
                 SearchResults.summary := summary |} t) in
       descending QueryResult.relevance_score filtered
       /\ forall r, In r filtered -> In r results.
Proof.
  eexists. split; [apply parse_response_eq|].
  cbn. split.
  - apply descending_filter.
    + rewrite sort_desc_perm. apply contributions_numbers.
    + apply sort_desc_sorted, contributions_numbers.
  - intros r Hr. now apply filter_In in Hr as [Hr _].
Qed.


(** ** Sorting on any key *)

Section SortOnFacts.
Context {A K : Type} (precedes : K -> K -> bool) (key : A -> K).
Hypothesis precedes_asym :
  forall a b, precedes a b = true -> precedes b a = false.

Lemma insert_on_perm (x : A) (l : list A) :
  Permutation (insert_on precedes key x l) (x :: l).
Proof.
  induction l as [|y l IH]; simpl; [reflexivity|].
  destruct (precedes (key y) (key x)); [|reflexivity].
  rewrite IH. apply perm_swap.
Qed.

Lemma sort_on_perm (l : list A) : Permutation (sort_on precedes key l) l.
Proof.
  induction l as [|x l IH]; simpl; [reflexivity|].
  rewrite insert_on_perm. now constructor.
Qed.

Lemma insert_on_hd (a x : A) (l : list A) :
  in_order precedes key a x -> HdRel (in_order precedes key) a l ->
  HdRel (in_order precedes key) a (insert_on precedes key x l).
Proof.
  intros Hax Hl. destruct l as [|y l]; simpl.
  - now constructor.
  - destruct (precedes (key y) (key x)); constructor; [|assumption].
    now inversion Hl.
Qed.

Lemma insert_on_sorted (x : A) (l : list A) :
  Sorted (in_order precedes key) l -> Sorted (in_order precedes key) (insert_on precedes key x l).
Proof.
  induction 1 as [|y l Hs IH Hhd]; simpl.
  - repeat constructor.
  - destruct (precedes (key y) (key x)) eqn:E.
    + constructor; [exact IH|].
      apply insert_on_hd; [|assumption].
      unfold in_order. now apply precedes_asym.
    + constructor; [now constructor|]. constructor. exact E.
Qed.

Lemma sort_on_sorted (l : list A) : Sorted (in_order precedes key) (sort_on precedes key l).
Proof.
  induction l as [|x l IH]; simpl; [constructor|]. now apply insert_on_sorted.
Qed.

Lemma insert_on_stable (f : A -> bool) (x : A) (l : list A) :
  (forall y, f x = true -> f y = true -> precedes (key y) (key x) = false) ->
  List.filter f (insert_on precedes key x l) = List.filter f (x :: l).
Proof.
  intros Hclass. induction l as [|y l IH]; [reflexivity|].
  cbn [insert_on]. destruct (precedes (key y) (key x)) eqn:E; [|reflexivity].
  cbn [List.filter] in IH |- *. rewrite IH.
  destruct (f x) eqn:Ex, (f y) eqn:Ey; try reflexivity.
  rewrite (Hclass y eq_refl Ey) in E. discriminate.
Qed.

(** Elements of a class whose members never overtake each other keep
    their order. *)
Lemma sort_on_stable (f : A -> bool) (l : list A) :
  (forall x y, f x = true -> f y = true -> precedes (key y) (key x) = false) ->
  List.filter f (sort_on precedes key l) = List.filter f l.
Proof.
  intros Hclass. induction l as [|x l IH]; [reflexivity|].
  cbn [sort_on fold_right]. fold (sort_on precedes key l).
  rewrite insert_on_stable by (intros y; apply Hclass).
  cbn [List.filter]. now rewrite IH.
Qed.

Lemma sorted_in_order_nth (l : list A) :
  Sorted (in_order precedes key) l ->
  forall i a b, nth_error l i = Some a -> nth_error l (S i) = Some b ->
                precedes (key b) (key a) = false.
Proof.
  induction 1 as [|x l Hs IH Hhd]; intros i a b Ha Hb.
  - now destruct i.
  - destruct i as [|i]; simpl in Ha, Hb.
    + injection Ha as <-. destruct l as [|y l]; [discriminate|].
      injection Hb as <-. now inversion Hhd.
    + now apply (IH i).
Qed.
End SortOnFacts.

(** ** Order of datetimes *)

Lemma lex_lt_irrefl (a : list nat) : lex_lt a a = false.
Proof.
  induction a as [|x a IH]; [reflexivity|]. simpl.
  now rewrite Nat.ltb_irrefl, Nat.eqb_refl, IH.
Qed.

Lemma lex_lt_asym (a b : list nat) : lex_lt a b = true -> lex_lt b a = false.
Proof.
  revert b. induction a as [|x a IH]; intros [|y b] H; try reflexivity;
    try discriminate. simpl in *.
  destruct (Nat.ltb_spec x y), (Nat.ltb_spec y x), (Nat.eqb_spec x y),
    (Nat.eqb_spec y x); simpl in *; try lia; try reflexivity; try discriminate.
  now apply IH.
Qed.

Lemma datetime_lt_asym (a b : datetime) :
  datetime_lt a b = true -> datetime_lt b a = false.
Proof. apply lex_lt_asym. Qed.

Lemma later_asym (a b : datetime) : later a b = true -> later b a = false.
Proof. unfold later. apply datetime_lt_asym. Qed.

Lemma str_eqb_eq (a b : str) : str_eqb a b = true <-> a = b.
Proof.
  revert b. induction a as [|x a IH]; intros [|y b]; simpl; split; intros H;
    try reflexivity; try discriminate.
  - apply andb_prop in H as [Hxy Hab]. apply Ascii.eqb_eq in Hxy.
    apply IH in Hab. congruence.
  - injection H as -> ->. rewrite Ascii.eqb_refl. now apply IH.
Qed.

Lemma str_eqb_refl (a : str) : str_eqb a a = true.
Proof. now apply str_eqb_eq. Qed.

Lemma str_eqb_neq (a b : str) : a <> b -> str_eqb a b = false.
Proof.
  intros H. destruct (str_eqb a b) eqn:E; [|reflexivity].
  now apply str_eqb_eq in E.
Qed.

(** ** The note repository *)

Import MockClinicalNoteRepository.

Lemma find_by_resident_id_eq (_notes : list ClinicalNote.t)
  (resident_id : str) (since_date : option datetime) :
  find_by_resident_id _notes resident_id since_date
  = sort_on later ClinicalNote.created_at
      (List.filter (selects resident_id since_date) _notes).
Proof.
  unfold find_by_resident_id, selects. f_equal.
  destruct since_date as [d|].
  - induction _notes as [|n ns IH]; [reflexivity|]. simpl.
    destruct (str_eqb _ _); simpl; [|exact IH].
    destruct (datetime_ge _ _); now rewrite IH.
  - induction _notes as [|n ns IH]; [reflexivity|]. simpl.
    rewrite andb_true_r. destruct (str_eqb _ _); now rewrite IH.
Qed.

Lemma found_iff_selected (_notes : list ClinicalNote.t)
  (resident_id : str) (since_date : option datetime) (note : ClinicalNote.t) :
  In note (find_by_resident_id _notes resident_id since_date)
  <-> In note _notes /\ selects resident_id since_date note = true.
Proof.
  rewrite find_by_resident_id_eq, <- filter_In.
  split; intros H.
  - now apply (Permutation_in _ (sort_on_perm _ _ _)) in H.
  - now apply (Permutation_in _ (Permutation_sym (sort_on_perm _ _ _))).
Qed.

(** X13: [find_by_resident_id] returns exactly the notes of the store that
    belong to the resident and, when a date is given, were created on or
    after it: no other note, and none of these is left out. *)
Theorem find_by_resident_id_selects (_notes : list ClinicalNote.t)
  (resident_id : str) (since_date : option datetime) (note : ClinicalNote.t) :
  In note (find_by_resident_id _notes resident_id since_date)
  <-> In note _notes
      /\ ClinicalNote.resident_id note = resident_id
      /\ forall d, since_date = Some d ->
                   datetime_ge (ClinicalNote.created_at note) d = true.
Proof.
  rewrite found_iff_selected. unfold selects.
  rewrite andb_true_iff, str_eqb_eq.
  destruct since_date as [d0|].
  - split.
    + intros (Hin & Hr & Hd). repeat split; try assumption.
      now intros d [= <-].
    + intros (Hin & Hr & Hd). auto.
  - split.
    + intros (Hin & Hr & _). repeat split; try assumption. discriminate.
    + intros (Hin & Hr & _). auto.
Qed.

(** X14: the notes come most recent first, notes of equal date in the
    order of the store, each as often as the store holds it. *)
Theorem find_by_resident_id_most_recent_first (_notes : list ClinicalNote.t)
  (resident_id : str) (since_date : option datetime) :
  let found := find_by_resident_id _notes resident_id since_date in
  let kept := List.filter (selects resident_id since_date) _notes in
  (forall i a b, nth_error found i = Some a -> nth_error found (S i) = Some b ->
                 datetime_ge (ClinicalNote.created_at a) (ClinicalNote.created_at b)
                 = true)
  /\ Permutation found kept
  /\ forall v, created_at_is v found = created_at_is v kept.
Proof.
  intros found kept. subst found. rewrite find_by_resident_id_eq. fold kept.
  split; [|split].
  - intros i a b Ha Hb. unfold datetime_ge.
    pose proof (sorted_in_order_nth later ClinicalNote.created_at _
                  (sort_on_sorted later ClinicalNote.created_at later_asym kept)
                  i a b Ha Hb) as H.
    unfold later in H. now rewrite H.
  - apply sort_on_perm.
  - intros v. unfold created_at_is. apply sort_on_stable.
    intros x y Hx Hy. apply bool_decide_eq_true in Hx, Hy.
    unfold later. rewrite Hx, Hy. apply lex_lt_irrefl.
Qed.


(** ** Dictionaries and the resident repository *)

Lemma dict_get_set_eq {V} (k : str) (v : V) (d : list (str * V)) :
  dict_get k (dict_set k v d) = Some v.
Proof.
  induction d as [|[k' v'] d IH]; simpl.
  - now rewrite str_eqb_refl.
  - destruct (str_eqb k' k) eqn:E; simpl; now rewrite E.
Qed.

Lemma dict_get_set_ne {V} (k k' : str) (v : V) (d : list (str * V)) :
  k <> k' -> dict_get k' (dict_set k v d) = dict_get k' d.
Proof.
  intros Hne. induction d as [|[k0 v0] d IH]; simpl.
  - now rewrite str_eqb_neq.
  - destruct (str_eqb k0 k) eqn:E; simpl.
    + apply str_eqb_eq in E. subst k0. now rewrite str_eqb_neq.
    + now rewrite IH.
Qed.

Lemma dict_set_keys {V} (k : str) (v : V) (d : list (str * V)) :
  map fst (dict_set k v d)
  = if existsb (str_eqb k) (map fst d) then map fst d else map fst d ++ [k].
Proof.
  induction d as [|[k' v'] d IH]; simpl; [reflexivity|].
  destruct (str_eqb k' k) eqn:E; simpl.
  - apply str_eqb_eq in E. subst k'. now rewrite str_eqb_refl.
  - rewrite IH. destruct (str_eqb k k') eqn:E'.
    + apply str_eqb_eq in E'. subst k'. now rewrite str_eqb_refl in E.
    + simpl. now destruct (existsb _ _).
Qed.

Lemma existsb_str_eqb (k : str) (l : list str) :
  existsb (str_eqb k) l = true <-> In k l.
Proof.
  rewrite existsb_exists. split.
  - intros (x & Hx & E). apply str_eqb_eq in E. now subst.
  - intros H. exists k. split; [assumption | apply str_eqb_refl].
Qed.

Lemma nodup_snoc {A} (l : list A) (x : A) :
  NoDup l -> ~ In x l -> NoDup (l ++ [x]).
Proof.
  intros Hl Hx. apply NoDup_app. repeat split.
  - exact Hl.
  - intros y Hy Hy'. apply list_elem_of_In in Hy, Hy'.
    destruct Hy' as [<-|[]]. contradiction.
  - apply NoDup_singleton.
Qed.

Lemma dict_set_nodup {V} (k : str) (v : V) (d : list (str * V)) :
  NoDup (map fst d) -> NoDup (map fst (dict_set k v d)).
Proof.
  intros H. rewrite dict_set_keys.
  destruct (existsb (str_eqb k) (map fst d)) eqn:E; [exact H|].
  apply nodup_snoc; [exact H|].
  intros Hin. apply existsb_str_eqb in Hin. congruence.
Qed.

Lemma dict_get_in {V} (k : str) (v : V) (d : list (str * V)) :
  dict_get k d = Some v -> In (k, v) d.
Proof.
  induction d as [|[k' v'] d IH]; simpl; [discriminate|].
  destruct (str_eqb k' k) eqn:E.
  - intros [= <-]. apply str_eqb_eq in E. subst. now left.
  - intros H. right. now apply IH.
Qed.

Lemma dict_in_get {V} (k : str) (v : V) (d : list (str * V)) :
  NoDup (map fst d) -> In (k, v) d -> dict_get k d = Some v.
Proof.
  induction d as [|[k' v'] d IH]; simpl; intros Hnd Hin; [destruct Hin|].
  apply NoDup_cons in Hnd as [Hk' Hnd'].
  destruct Hin as [[= -> ->]|Hin].
  - now rewrite str_eqb_refl.
  - destruct (str_eqb k' k) eqn:E.
    + apply str_eqb_eq in E. subst k'. exfalso. apply Hk'.
      apply list_elem_of_In. now apply (in_map fst _ (k, v)).
    + now apply IH.
Qed.

Lemma dict_set_in {V} (k : str) (v : V) (d : list (str * V)) (k0 : str) (v0 : V) :
  In (k0, v0) (dict_set k v d) -> (k0 = k /\ v0 = v) \/ In (k0, v0) d.
Proof.
  induction d as [|[k' v'] d IH]; simpl.
  - intros [[= <- <-]|[]]. now left.
  - destruct (str_eqb k' k) eqn:E; simpl.
    + apply str_eqb_eq in E. subst k'.
      intros [[= <- <-]|H]; [now left | now right; right].
    + intros [H|H]; [now right; left|].
      destruct (IH H) as [?|?]; [now left | now right; right].
Qed.

Import MockResidentRepository.

(** What the loop of [_create_mock_residents] keeps true of the
    dictionary: every key is the id of its resident, no key twice, and
    the keys are ids of the data. *)
Lemma store_residents_invariant (resident_data : list resident_datum) :
  let residents := store_residents resident_data in
  NoDup (map fst residents)
  /\ (forall k r, In (k, r) residents ->
                  Resident.id r = k /\ In k (map data_id resident_data))
  /\ (forall k, In k (map data_id resident_data) -> In k (map fst residents)).
Proof.
  intros residents. subst residents. unfold store_residents.
  assert (forall data d0,
             NoDup (map fst d0) ->
             (forall k r, In (k, r) d0 -> Resident.id r = k) ->
             let d := fold_left
                        (fun residents data =>
                           let resident :=
                             {| Resident.id := data_id data;
                                Resident.name := data_name data;
                                Resident.room_number := data_room data;
                                Resident.admission_date := data_admission_date data |} in
                           dict_set (Resident.id resident) resident residents)
                        data d0 in
             NoDup (map fst d)
             /\ (forall k r, In (k, r) d ->
                             Resident.id r = k
                             /\ (In k (map fst d0) \/ In k (map data_id data)))
             /\ (forall k, In k (map fst d0) \/ In k (map data_id data) ->
                           In k (map fst d))) as Hgen.
  { induction data as [|x data IH]; intros d0 Hnd Hid; cbn [fold_left map].
    - split; [exact Hnd|]. split.
      + intros k r Hin. split; [now apply Hid|].
        left. now apply (in_map fst _ (k, r)).
      + now intros k [H|[]].
    - cbn zeta.
      set (res := {| Resident.id := data_id x; Resident.name := data_name x;
                     Resident.room_number := data_room x;
                     Resident.admission_date := data_admission_date x |}).
      destruct (IH (dict_set (data_id x) res d0)) as (H1 & H2 & H3).
      + now apply dict_set_nodup.
      + intros k r Hin. apply dict_set_in in Hin as [[-> ->]|Hin];
          [reflexivity | now apply Hid].
      + split; [exact H1|]. split.
        * intros k r Hin. destruct (H2 k r Hin) as (Hk & Hor).
          split; [exact Hk|].
          destruct Hor as [Hor|Hor]; [|now right; right].
          rewrite dict_set_keys in Hor.
          destruct (existsb _ _); [now left|].
          apply in_app_or in Hor as [Hor|[<-|[]]]; [now left | right; now left].
        * intros k Hk. apply H3.
          destruct Hk as [Hk|[<-|Hk]]; [| |now right].
          -- left. rewrite dict_set_keys.
             destruct (existsb _ _); [assumption | apply in_or_app; now left].
          -- left. rewrite dict_set_keys.
             destruct (existsb (str_eqb (data_id x)) (map fst d0)) eqn:E.
             ++ now apply existsb_str_eqb.
             ++ apply in_or_app. right. now left. }
  destruct (Hgen resident_data []) as (H1 & H2 & H3).
  - apply NoDup_nil_2.
  - intros k r [].
  - split; [exact H1|]. split.
    + intros k r Hin. destruct (H2 k r Hin) as (Hk & [[]|Hor]). now split.
    + intros k Hk. apply H3. now right.
Qed.

(** X15: the resident repository, for any resident data: a resident found
    by an id has that id and is listed by [find_all]; every listed
    resident is found by its own id; no id is listed twice; and an id is
    found exactly when the data has it. *)
Theorem resident_lookup_consistent (resident_data : list resident_datum)
  (resident_id : str) :
  let _residents := store_residents resident_data in
  (forall r, find_by_id _residents resident_id = Some r ->
             Resident.id r = resident_id /\ In r (find_all _residents))
  /\ (forall r, In r (find_all _residents) ->
                find_by_id _residents (Resident.id r) = Some r)
  /\ NoDup (map Resident.id (find_all _residents))
  /\ (find_by_id _residents resident_id <> None
      <-> In resident_id (map data_id resident_data)).
Proof.
  intros _residents.
  destruct (store_residents_invariant resident_data) as (Hnd & Hid & Hkeys).
  fold _residents in Hnd, Hid, Hkeys.
  unfold find_by_id, find_all, dict_values.
  assert (map Resident.id (map snd _residents) = map fst _residents) as Hids.
  { rewrite map_map. apply map_ext_in. intros [k r] Hin. simpl.
    now apply (Hid k r). }
  split; [|split; [|split]].
  - intros r Hr. apply dict_get_in in Hr. split.
    + now apply (Hid resident_id r).
    + now apply (in_map snd _ (resident_id, r)).
  - intros r Hr. apply in_map_iff in Hr as ([k r'] & <- & Hin). simpl.
    destruct (Hid k r' Hin) as [-> _]. now apply dict_in_get.
  - now rewrite Hids.
  - split.
    + intros Hsome. destruct (dict_get resident_id _residents) as [r|] eqn:E;
        [|congruence].
      apply dict_get_in in E. now apply (Hid resident_id r).
    + intros Hin. apply Hkeys in Hin.
      apply in_map_iff in Hin as ([k r] & Hk & Hin). simpl in Hk. subst k.
      now rewrite (dict_in_get _ _ _ Hnd Hin).
Qed.


(** ** The mock notes *)

Lemma lookup_nth_error {A} (l : list A) (i : nat) : l !! i = nth_error l i.
Proof.
  revert i. induction l as [|x l IH]; intros [|i]; try reflexivity. apply IH.
Qed.

Lemma numbered_nodup (notes : list ClinicalNote.t) :
  numbered notes -> NoDup (map ClinicalNote.id notes).
Proof.
  intros Hnum. apply NoDup_alt. intros i j x Hi Hj.
  rewrite lookup_nth_error in Hi, Hj.
  rewrite nth_error_map in Hi, Hj.
  destruct (nth_error notes i) as [a|] eqn:Ea; [|discriminate].
  destruct (nth_error notes j) as [b|] eqn:Eb; [|discriminate].
  injection Hi as Hi. injection Hj as Hj.
  rewrite (Hnum i a Ea) in Hi. rewrite (Hnum j b Eb) in Hj.
  assert (zero_pad 3 (i + 1) = zero_pad 3 (j + 1)) as Hpad.
  { rewrite <- Hj in Hi. now apply app_inv_head in Hi. }
  apply (f_equal digits_value) in Hpad.
  rewrite !digits_value_zero_pad in Hpad. lia.
Qed.

Lemma append_notes_spec (minus_days : datetime -> Z -> result datetime)
  (base_date : datetime) (resident_id : str) (data : list note_entry)
  (notes notes' : list ClinicalNote.t) :
  append_notes minus_days base_date resident_id data notes = Ok notes' ->
  numbered notes ->
  numbered notes' /\ length notes' = (length notes + length data)%nat.
Proof.
  revert notes. induction data as [|d data IH]; intros notes; cbn [append_notes].
  - intros [= <-] Hnum. split; [exact Hnum | simpl; lia].
  - unfold mbind, result_bind.
    destruct (minus_days base_date (data_days_ago d)) as [created|e];
      [|discriminate].
    intros H Hnum. apply IH in H as (Hnum' & Hlen).
    + split; [exact Hnum'|]. rewrite Hlen, length_app. simpl. lia.
    + intros i note Hi.
      destruct (Nat.lt_ge_cases i (length notes)) as [Hlt|Hge].
      * rewrite nth_error_app1 in Hi by exact Hlt. now apply Hnum.
      * rewrite nth_error_app2 in Hi by exact Hge.
        destruct (i - length notes)%nat as [|k] eqn:Ek; simpl in Hi.
        -- injection Hi as <-. cbn [ClinicalNote.id].
           assert (i = length notes) as -> by lia. reflexivity.
        -- now destruct k.
Qed.

(** X16: the notes [_create_mock_notes] builds, whatever the clock reads:
    thirteen notes, numbered [NOTE_001] to [NOTE_013] in order, so that no
    two notes of the store have the same id. *)
Theorem mock_notes_numbered {W : Type}
  (handle : forall X, call X -> W -> result X * W)
  (minus_days : datetime -> Z -> result datetime)
  (w w' : W) (notes : list ClinicalNote.t) (trace : list event) :
  run handle (_create_mock_notes minus_days) w = (Ok notes, w', trace) ->
  length notes = 13%nat
  /\ (forall i note, nth_error notes i = Some note ->
                     ClinicalNote.id note = py "NOTE_" ++ zero_pad 3 (i + 1))
  /\ NoDup (map ClinicalNote.id notes).
Proof.
  unfold _create_mock_notes. cbn [run].
  destruct (handle datetime DatetimeNow w) as [[base_date|e] w1]; [|discriminate].
  unfold mbind, result_bind.
  destruct (append_notes minus_days base_date (py "RES001") mary_notes [])
    as [n1|e1] eqn:E1;
    [|cbn [SearchClinicalNotesUseCase.lift run]; discriminate].
  destruct (append_notes minus_days base_date (py "RES002") robert_notes n1)
    as [n2|e2] eqn:E2;
    [|cbn [SearchClinicalNotesUseCase.lift run]; discriminate].
  destruct (append_notes minus_days base_date (py "RES003") dorothy_notes n2)
    as [n3|e3] eqn:E3;
    cbn [SearchClinicalNotesUseCase.lift run]; [|discriminate].
  intros [= <- _ _].
  apply append_notes_spec in E1 as (Hn1 & Hl1); [|intros [|i] note; discriminate].
  apply append_notes_spec in E2 as (Hn2 & Hl2); [|exact Hn1].
  apply append_notes_spec in E3 as (Hn3 & Hl3); [|exact Hn2].
  split; [|split].
  - rewrite Hl3, Hl2, Hl1. reflexivity.
  - exact Hn3.
  - now apply numbered_nodup.
Qed.

Lemma mock_notes_numbered_witness :
  exists notes,
    fst (fst (run empty_store (_create_mock_notes datetime_minus_days) tt)) = Ok notes
    /\ length notes = 13%nat
    /\ NoDup (map ClinicalNote.id notes).
Proof.
  destruct (run empty_store (_create_mock_notes datetime_minus_days) tt)
    as [[[notes|e] w'] trace] eqn:E.
  - exists notes. split; [reflexivity|].
    destruct (mock_notes_numbered empty_store datetime_minus_days tt w' notes trace E)
      as (Hlen & _ & Hnd).
    now split.
  - vm_compute in E. discriminate E.
Defined.


(** ** More on the orchestrator *)

(** X17: with notes in the window, [execute] hands exactly the notes the
    store returned to [process_query], generates the summary from the
    results it got back, and returns both with the query and no resident;
    the four collaborators are called once each, in this order. *)
Theorem execute_with_notes {W : Type}
  (handle : forall X, call X -> W -> result X * W)
  (minus_days : datetime -> Z -> result datetime)
  (lookback_days : Z) (resident_id query : str)
  (w w1 w2 w3 w4 : W) (now since_date : datetime)
  (notes : list ClinicalNote.t) (results : list QueryResult.t) (summary : str) :
  notes <> [] ->
  handle _ DatetimeNow w = (Ok now, w1) ->
  minus_days now lookback_days = Ok since_date ->
  handle _ (FindByResidentId resident_id (Some since_date)) w1 = (Ok notes, w2) ->
  handle _ (ProcessQuery query notes) w2 = (Ok results, w3) ->
  handle _ (GenerateSummary query results) w3 = (Ok summary, w4) ->
  run handle
    (SearchClinicalNotesUseCase.execute minus_days lookback_days resident_id query) w
  = (Ok {| SearchResults.query := query;
           SearchResults.resident := None;
           SearchResults.results := results;
           SearchResults.summary := summary |},
     w4,
     [Called DatetimeNow;
      Called (FindByResidentId resident_id (Some since_date));
      Called (ProcessQuery query notes);
      Called (GenerateSummary query results)]).
Proof.
  intros Hne Hnow Hsince Hfind Hproc Hsum.
  unfold SearchClinicalNotesUseCase.execute. cbn [run].
  rewrite Hnow, Hsince. cbn [SearchClinicalNotesUseCase.lift run].
  rewrite Hfind. destruct notes as [|n notes]; [congruence|].
  cbn [run]. rewrite Hproc. cbn [run]. rewrite Hsum. reflexivity.
Qed.

Lemma execute_with_notes_witness :
  fst (fst (run (app_handle sample_datetime two_notes (fun _ => Ok one_reply))
              (SearchClinicalNotesUseCase.execute datetime_minus_days 14
                 (py "RES001") (py "any falls?")) []))
  = Ok {| SearchResults.query := py "any falls?";
          SearchResults.resident := None;
          SearchResults.results :=
            [sample_result "Resident fell twice" fell_note f_0_9];
          SearchResults.summary :=
            py "I found 1 notes that may indicate fall risk or incidents:" |}.
Proof.
  rewrite (execute_with_notes
             (app_handle sample_datetime two_notes (fun _ => Ok one_reply))
             datetime_minus_days 14 (py "RES001") (py "any falls?")
             [] [] [] [] [] sample_datetime sample_since two_notes
             [sample_result "Resident fell twice" fell_note f_0_9]
             (py "I found 1 notes that may indicate fall risk or incidents:")).
  - reflexivity.
  - discriminate.
  - reflexivity.
  - vm_compute. reflexivity.
  - vm_compute. reflexivity.
  - vm_compute. reflexivity.
  - vm_compute. reflexivity.
Defined.



(** ** The wired application *)

Lemma process_query_results (generate_content : str -> result str)
  (query : str) (notes : list ClinicalNote.t) :
  exists results lines,
    process_query generate_content query notes = (Ok results, lines)
    /\ descending QueryResult.relevance_score results
    /\ forall r, In r results -> In (QueryResult.source_note r) notes.
Proof.
  unfold process_query.
  destruct (generate_content _) as [text|e]; simpl.
  - destruct (parsed_results_origin text notes) as (results & Hp & Hall).
    rewrite Hp. exists results, []. split; [reflexivity|]. split.
    + rewrite parse_response_eq in Hp. injection Hp as <-.
      apply sorted_descending, sort_desc_sorted, contributions_numbers.
    + intros r Hr. apply Hall in Hr as (f & _ & Hc).
      apply contribution_some in Hc as (q & ds & _ & _ & _ & _ & Hn & _).
      now apply nth_error_In in Hn.
  - eexists [], _. split; [reflexivity|]. split.
    + intros [|i] a b; discriminate.
    + intros r [].
Qed.

Lemma wired_use_case_run (now : datetime) (_notes : list ClinicalNote.t)
  (generate_content : str -> result str)
  (minus_days : datetime -> Z -> result datetime)
  (lookback_days : Z) (resident_id query : str) (printed : list str)
  (since_date : datetime) :
  minus_days now lookback_days = Ok since_date ->
  exists s printed' trace,
    run (app_handle now _notes generate_content)
      (SearchClinicalNotesUseCase.execute minus_days lookback_days resident_id query)
      printed
    = (Ok s, printed', trace)
    /\ SearchResults.query s = query
    /\ SearchResults.resident s = None
    /\ descending QueryResult.relevance_score (SearchResults.results s)
    /\ forall r, In r (SearchResults.results s) ->
         In (QueryResult.source_note r)
           (find_by_resident_id _notes resident_id (Some since_date)).
Proof.
  intros Hsince.
  unfold SearchClinicalNotesUseCase.execute. cbn [run app_handle].
  rewrite Hsince. cbn [SearchClinicalNotesUseCase.lift run app_handle].
  destruct (find_by_resident_id _notes resident_id (Some since_date))
    as [|n notes] eqn:Efind.
  - cbn [run]. eexists _, _, _. split; [reflexivity|].
    cbn [SearchResults.query SearchResults.resident SearchResults.results].
    split; [reflexivity|]. split; [reflexivity|]. split.
    + intros [|i] a b; discriminate.
    + intros r [].
  - cbn [run app_handle].
    destruct (process_query_results generate_content query (n :: notes))
      as (results & lines & Hpq & Hdesc & Hsrc).
    rewrite Hpq. cbn [run app_handle].
    eexists _, _, _. split; [reflexivity|].
    cbn [SearchResults.query SearchResults.resident SearchResults.results].
    split; [reflexivity|]. split; [reflexivity|]. split; [exact Hdesc|].
    exact Hsrc.
Qed.

Lemma in_window (_notes : list ClinicalNote.t) (resident_id : str)
  (since_date : datetime) (note : ClinicalNote.t) :
  In note (find_by_resident_id _notes resident_id (Some since_date)) ->
  In note _notes
  /\ ClinicalNote.resident_id note = resident_id
  /\ datetime_ge (ClinicalNote.created_at note) since_date = true.
Proof.
  intros H. apply found_iff_selected in H as (Hin & Hsel).
  unfold selects in Hsel. apply andb_prop in Hsel as (Hr & Hd).
  apply str_eqb_eq in Hr. now repeat split.
Qed.

(** X19: a search of the wired application never fails once the look-back
    date is computed, and the notes it attributes its results to are
    inside the window: the source note of every result is a note of the
    store that belongs to the resident and was created on or after the
    look-back date (the snippet of a result is not compared with its
    source note); the results are in descending order of relevance, the
    query is echoed and the resident left out. *)
Theorem app_search_within_window (now : datetime) (_notes : list ClinicalNote.t)
  (generate_content : str -> result str)
  (minus_days : datetime -> Z -> result datetime)
  (lookback_days : Z) (resident_id query : str) (printed : list str)
  (since_date : datetime) :
  minus_days now lookback_days = Ok since_date ->
  exists s printed' trace,
    run (app_handle now _notes generate_content)
      (SearchClinicalNotesUseCase.execute minus_days lookback_days resident_id query)
      printed
    = (Ok s, printed', trace)
    /\ SearchResults.query s = query
    /\ SearchResults.resident s = None
    /\ descending QueryResult.relevance_score (SearchResults.results s)
    /\ forall r, In r (SearchResults.results s) ->
         In (QueryResult.source_note r) _notes
         /\ ClinicalNote.resident_id (QueryResult.source_note r) = resident_id
         /\ datetime_ge (ClinicalNote.created_at (QueryResult.source_note r))
              since_date = true.
Proof.
  intros Hsince.
  destruct (wired_use_case_run now _notes generate_content minus_days
              lookback_days resident_id query printed since_date Hsince)
    as (s & printed' & trace & Hrun & Hq & Hres & Hdesc & Hsrc).
  exists s, printed', trace.
  split; [exact Hrun|]. split; [exact Hq|]. split; [exact Hres|].
  split; [exact Hdesc|].
  intros r Hr. now apply in_window, Hsrc.
Qed.

Lemma app_search_within_window_witness :
  exists s printed' trace,
    run (app_handle sample_datetime two_notes (fun _ => Ok one_reply))
      (SearchClinicalNotesUseCase.execute datetime_minus_days 14
         (py "RES001") (py "any falls?")) []
    = (Ok s, printed', trace)
    /\ SearchResults.query s = py "any falls?".
Proof.
  destruct (app_search_within_window sample_datetime two_notes
              (fun _ => Ok one_reply) datetime_minus_days 14
              (py "RES001") (py "any falls?") [] sample_since eq_refl)
    as (s & printed' & trace & Hrun & Hq & _).
  exists s, printed', trace. now split.
Defined.

(** X20: when the generation service fails on a search that has notes in
    the window, the wired application still answers: no results, the
    summary that no evidence was found, and the error on the output. *)
Theorem app_upstream_failure (now : datetime) (_notes : list ClinicalNote.t)
  (generate_content : str -> result str)
  (minus_days : datetime -> Z -> result datetime)
  (lookback_days : Z) (resident_id query : str) (printed : list str)
  (since_date : datetime) (e : exn) :
  minus_days now lookback_days = Ok since_date ->
  find_by_resident_id _notes resident_id (Some since_date) <> [] ->
  (forall prompt, generate_content prompt = Raise e) ->
  exists trace,
    run (app_handle now _notes generate_content)
      (SearchClinicalNotesUseCase.execute minus_days lookback_days resident_id query)
      printed
    = (Ok {| SearchResults.query := query;
             SearchResults.resident := None;
             SearchResults.results := [];
             SearchResults.summary :=
               py "No relevant clinical evidence found for your query." |},
       printed ++ [py "Error processing query with Gemini: " ++ exn_str e],
       trace).
Proof.
  intros Hsince Hnotes Hfail.
  unfold SearchClinicalNotesUseCase.execute. cbn [run app_handle].
  rewrite Hsince. cbn [SearchClinicalNotesUseCase.lift run app_handle].
  destruct (find_by_resident_id _notes resident_id (Some since_date))
    as [|n notes]; [congruence|].
  cbn [run app_handle]. unfold process_query. rewrite Hfail. cbn.
  eexists. reflexivity.
Qed.

Lemma app_upstream_failure_witness :
  fst (run (app_handle sample_datetime two_notes
              (fun _ => Raise (OtherException (py "quota exceeded"))))
         (SearchClinicalNotesUseCase.execute datetime_minus_days 14
            (py "RES001") (py "any falls?")) [])
  = (Ok {| SearchResults.query := py "any falls?";
           SearchResults.resident := None;
           SearchResults.results := [];
           SearchResults.summary :=
             py "No relevant clinical evidence found for your query." |},
     [py "Error processing query with Gemini: quota exceeded"]).
Proof.
  destruct (app_upstream_failure sample_datetime two_notes
              (fun _ => Raise (OtherException (py "quota exceeded")))
              datetime_minus_days 14 (py "RES001") (py "any falls?") []
              sample_since (OtherException (py "quota exceeded")))
    as (trace & Hrun).
  - reflexivity.
  - vm_compute. discriminate.
  - reflexivity.
  - rewrite Hrun. reflexivity.
Defined.


(** ** The controller *)

Lemma run_app_use_case {W : Type}
  (handle : forall X, app_call X -> W -> result X * W)
  {A B} (p : prog A) (k : A -> proc B) (w : W) :
  run_app handle (and_then (embed p) k) w
  = match run (use_case_handle handle) p w with
    | (Ok a, w1, trace) =>
        let '(r, w2, trace') := run_app handle (k a) w1 in
        (r, w2, map as_app_event trace ++ trace')
    | (Raise e, w1, trace) => (Raise e, w1, map as_app_event trace)
    end.
Proof.
  revert w. induction p as [a|e|X c k' IH]; intros w; cbn.
  - now destruct (run_app handle (k a) w) as [[r w2] t].
  - reflexivity.
  - unfold use_case_handle at 1.
    destruct (handle X (UseCase c) w) as [[x|e] w1]; [|reflexivity].
    rewrite IH.
    destruct (run (use_case_handle handle) (k' x) w1) as [[[a|e] w2] t];
      [|reflexivity].
    now destruct (run_app handle (k a) w2) as [[r w3] t'].
Qed.

(** X21: [search_clinical_notes] runs the search and then looks the
    resident up: its answer is that of [execute] with the resident the
    repository returned (absent for an unknown id), query, results and
    summary unchanged; when the search raises, the exception comes out
    and the repository is not asked. *)
Theorem controller_attaches_resident {W : Type}
  (handle : forall X, app_call X -> W -> result X * W)
  (minus_days : datetime -> Z -> result datetime)
  (lookback_days : Z) (resident_id query : str) (w w1 : W)
  (trace : list event) :
  (forall s w2 resident,
      run (use_case_handle handle)
        (SearchClinicalNotesUseCase.execute minus_days lookback_days
           resident_id query) w
      = (Ok s, w1, trace) ->
      handle _ (FindById resident_id) w1 = (Ok resident, w2) ->
      run_app handle
        (TalkToChartController.search_clinical_notes minus_days lookback_days
           resident_id query) w
      = (Ok {| SearchResults.query := SearchResults.query s;
               SearchResults.resident := resident;
               SearchResults.results := SearchResults.results s;
               SearchResults.summary := SearchResults.summary s |},
         w2,
         map as_app_event trace ++ [AppCalled (FindById resident_id)]))
  /\ (forall e,
         run (use_case_handle handle)
           (SearchClinicalNotesUseCase.execute minus_days lookback_days
              resident_id query) w
         = (Raise e, w1, trace) ->
         run_app handle
           (TalkToChartController.search_clinical_notes minus_days lookback_days
              resident_id query) w
         = (Raise e, w1, map as_app_event trace)).
Proof.
  unfold TalkToChartController.search_clinical_notes. split.
  - intros s w2 resident Hrun Hfind. rewrite run_app_use_case, Hrun.
    cbn [GetResidentUseCase.execute and_then run_app]. rewrite Hfind. reflexivity.
  - intros e Hrun. now rewrite run_app_use_case, Hrun.
Qed.

Lemma controller_attaches_resident_witness :
  fst (fst (run_app
              (wired_handle sample_datetime two_notes
                 (MockResidentRepository.store_residents sample_residents)
                 (fun _ => Ok one_reply))
              (TalkToChartController.search_clinical_notes datetime_minus_days 14
                 (py "RES404") (py "any falls?")) []))
  = Ok {| SearchResults.query := py "any falls?";
          SearchResults.resident := None;
          SearchResults.results := [];
          SearchResults.summary :=
            py "No clinical notes found for the specified time period." |}.
Proof.
  rewrite (proj1 (controller_attaches_resident
                    (wired_handle sample_datetime two_notes
                       (MockResidentRepository.store_residents sample_residents)
                       (fun _ => Ok one_reply))
                    datetime_minus_days 14 (py "RES404") (py "any falls?") [] []
                    [Called DatetimeNow;
                     Called (FindByResidentId (py "RES404") (Some sample_since))])
             {| SearchResults.query := py "any falls?";
                SearchResults.resident := None;
                SearchResults.results := [];
                SearchResults.summary :=
                  py "No clinical notes found for the specified time period." |}
             [] None).
  - reflexivity.
  - vm_compute. reflexivity.
  - reflexivity.
Defined.

Lemma use_case_of_wired (now : datetime) (_notes : list ClinicalNote.t)
  (_residents : list (str * Resident.t)) (generate_content : str -> result str)
  {A} (p : prog A) (printed : list str) :
  run (use_case_handle (wired_handle now _notes _residents generate_content)) p printed
  = run (app_handle now _notes generate_content) p printed.
Proof.
  reflexivity.
Qed.

(** X22: a search through the controller of the wired application, once
    the look-back date is computed, always answers; the resident it
    attaches has the requested id and is absent exactly when the resident
    data does not have the id; and the source note of every result is a
    note of the store that belongs to the requested resident and was
    created on or after the look-back date (the snippet of a result is not
    compared with its source note). *)
Theorem wired_search_answers (now : datetime) (_notes : list ClinicalNote.t)
  (resident_data : list MockResidentRepository.resident_datum)
  (generate_content : str -> result str)
  (minus_days : datetime -> Z -> result datetime)
  (lookback_days : Z) (resident_id query : str) (printed : list str)
  (since_date : datetime) :
  minus_days now lookback_days = Ok since_date ->
  exists s printed' trace,
    run_app
      (wired_handle now _notes
         (MockResidentRepository.store_residents resident_data) generate_content)
      (TalkToChartController.search_clinical_notes minus_days lookback_days
         resident_id query) printed
    = (Ok s, printed', trace)
    /\ SearchResults.query s = query
    /\ (forall resident, SearchResults.resident s = Some resident ->
                         Resident.id resident = resident_id)
    /\ (SearchResults.resident s = None
        <-> ~ In resident_id
                (map MockResidentRepository.data_id resident_data))
    /\ forall r, In r (SearchResults.results s) ->
         In (QueryResult.source_note r) _notes
         /\ ClinicalNote.resident_id (QueryResult.source_note r) = resident_id
         /\ datetime_ge (ClinicalNote.created_at (QueryResult.source_note r))
              since_date = true.
Proof.
  intros Hsince.
  destruct (wired_use_case_run now _notes generate_content minus_days
              lookback_days resident_id query printed since_date Hsince)
    as (s & printed' & trace & Hrun & Hq & _ & _ & Hsrc).
  assert (Hwin := fun r Hr => in_window _ _ _ _ (Hsrc r Hr)).
  destruct (store_residents_invariant resident_data)
    as (Hnd & Hid & Hkeys).
  destruct (MockResidentRepository.find_by_id
              (MockResidentRepository.store_residents resident_data) resident_id)
    as [resident|] eqn:Efind.
  all: eexists _, _, _; split;
    [ unfold TalkToChartController.search_clinical_notes;
      rewrite run_app_use_case, use_case_of_wired, Hrun;
      cbn [GetResidentUseCase.execute and_then run_app wired_handle];
      rewrite Efind; reflexivity |].
  all: cbn [SearchResults.query SearchResults.resident SearchResults.results].
  all: unfold MockResidentRepository.find_by_id in Efind.
  - split; [exact Hq|]. split; [|split; [|exact Hwin]].
    + intros r [= <-]. apply dict_get_in in Efind. now apply (Hid _ _ Efind).
    + split; [discriminate|]. intros Hnot. exfalso. apply Hnot.
      apply dict_get_in in Efind. now apply (Hid _ _ Efind).
  - split; [exact Hq|]. split; [|split; [|exact Hwin]].
    + discriminate.
    + split; [|reflexivity]. intros _ Hin. apply Hkeys in Hin.
      apply in_map_iff in Hin as ([k r] & Hk & Hin). simpl in Hk. subst k.
      rewrite (dict_in_get _ _ _ Hnd Hin) in Efind. discriminate.
Qed.

Lemma wired_search_answers_witness :
  exists s printed' trace,
    run_app
      (wired_handle sample_datetime two_notes
         (MockResidentRepository.store_residents sample_residents)
         (fun _ => Ok one_reply))
      (TalkToChartController.search_clinical_notes datetime_minus_days 14
         (py "RES001") (py "any falls?")) []
    = (Ok s, printed', trace)
    /\ SearchResults.query s = py "any falls?".
Proof.
  destruct (wired_search_answers sample_datetime two_notes sample_residents
              (fun _ => Ok one_reply) datetime_minus_days 14
              (py "RES001") (py "any falls?") [] sample_since eq_refl)
    as (s & printed' & trace & Hrun & Hq & _).
  exists s, printed', trace. now split.
Defined.

(** X23: every resident that [get_residents] lists on the wired
    application can be searched: a search for the id of a listed
    resident, once the look-back date is computed, answers with that very
    resident attached. *)
Theorem listed_resident_attached (now : datetime) (_notes : list ClinicalNote.t)
  (resident_data : list MockResidentRepository.resident_datum)
  (generate_content : str -> result str)
  (minus_days : datetime -> Z -> result datetime)
  (lookback_days : Z) (query : str) (printed printed0 : list str)
  (since_date : datetime) (residents : list Resident.t)
  (trace0 : list app_event) (resident : Resident.t) :
  minus_days now lookback_days = Ok since_date ->
  run_app
    (wired_handle now _notes
       (MockResidentRepository.store_residents resident_data) generate_content)
    (TalkToChartController.get_residents) printed
  = (Ok residents, printed0, trace0) ->
  In resident residents ->
  exists s printed' trace,
    run_app
      (wired_handle now _notes
         (MockResidentRepository.store_residents resident_data) generate_content)
      (TalkToChartController.search_clinical_notes minus_days lookback_days
         (Resident.id resident) query) printed
    = (Ok s, printed', trace)
    /\ SearchResults.resident s = Some resident.
Proof.
  intros Hsince Hlist Hin.
  cbn in Hlist. injection Hlist as <- _ _.
  destruct (wired_use_case_run now _notes generate_content minus_days
              lookback_days (Resident.id resident) query printed since_date Hsince)
    as (s & printed' & trace & Hrun & _).
  destruct (store_residents_invariant resident_data) as (Hnd & Hid & _).
  unfold MockResidentRepository.find_all, dict_values in Hin.
  apply in_map_iff in Hin as ([k r] & Hr & Hin). simpl in Hr. subst r.
  destruct (Hid k resident Hin) as [Hk _]. subst k.
  eexists _, _, _. split.
  - unfold TalkToChartController.search_clinical_notes.
    rewrite run_app_use_case, use_case_of_wired, Hrun.
    cbn [GetResidentUseCase.execute and_then run_app wired_handle].
    unfold MockResidentRepository.find_by_id.
    rewrite (dict_in_get _ _ _ Hnd Hin). reflexivity.
  - reflexivity.
Qed.

Lemma listed_resident_attached_witness :
  exists s printed' trace,
    run_app
      (wired_handle sample_datetime two_notes
         (MockResidentRepository.store_residents sample_residents)
         (fun _ => Ok one_reply))
      (TalkToChartController.search_clinical_notes datetime_minus_days 14
         (py "RES002") (py "any falls?")) []
    = (Ok s, printed', trace)
    /\ SearchResults.resident s
       = Some {| Resident.id := py "RES002";
                 Resident.name := py "Robert Williams";
                 Resident.room_number := py "102B";
                 Resident.admission_date := sample_since |}.
Proof.
  apply (listed_resident_attached sample_datetime two_notes sample_residents
           (fun _ => Ok one_reply) datetime_minus_days 14 (py "any falls?")
           [] [] sample_since
           (MockResidentRepository.find_all
              (MockResidentRepository.store_residents sample_residents))
           [AppCalled FindAll]
           {| Resident.id := py "RES002";
              Resident.name := py "Robert Williams";
              Resident.room_number := py "102B";
              Resident.admission_date := sample_since |}).
  - reflexivity.
  - reflexivity.
  - vm_compute. right. left. reflexivity.
Defined.
